(** * ash-ge: a shallow embedding of the command parser, the commands and
      the game loop (src/ash/parser.py, src/ash/command.py, src/ash/game.py).

    Python objects are modelled by inductive types, dictionaries by
    association lists in insertion order, exceptions by a [result] type and
    the mutation of shared objects by explicit state passing.  The two
    third-party libraries the code calls, [regex] and [pydantic], are not
    part of the repository: the regular-expression matcher and the
    string-to-integer conversion are interfaces (type classes), and a small
    backtracking matcher instantiates them for the concrete runs.  Schemas
    are validated by the declared types of their fields: validators that a
    schema may define itself, and the exceptions they may raise, are not
    part of the model.

    [Game.run], which schedules the background loop next to the input
    loop with [asyncio], is not embedded: what is stated about each loop
    is stated about its own sequence of steps. *)

From Stdlib Require Import String Ascii List ZArith QArith Bool Arith Lia.
From Stdlib Require DecimalString.
Import ListNotations.
Close Scope Q_scope.
Local Open Scope list_scope.
Local Open Scope string_scope.

Set Implicit Arguments.
Set Warnings "-register-all".

(** ** Python dictionaries with string keys, in insertion order *)

Module dict.
Definition t (V : Type) := list (string * V).

Definition keys {V} (d : t V) : list string := map fst d.

Fixpoint lookup {V} (k : string) (d : t V) : option V :=
  match d with
  | [] => None
  | (k', v) :: d' => if String.eqb k k' then Some v else lookup k d'
  end.

(** [k in d] *)
Definition mem {V} (k : string) (d : t V) : bool :=
  match lookup k d with Some _ => true | None => false end.

(** [d[k] = v]: an existing key keeps its place, a new one goes last. *)
Fixpoint set {V} (k : string) (v : V) (d : t V) : t V :=
  match d with
  | [] => [(k, v)]
  | (k', v') :: d' =>
      if String.eqb k k' then (k, v) :: d' else (k', v') :: set k v d'
  end.
End dict.

(** ** Values, validation errors and exceptions *)

Inductive value : Type :=
| VNone
| VInt (z : Z)
| VStr (s : string)
| VList (l : list value)
| VTuple (l : list value).

(** [None] or a string, as [Match.group] returns it. *)
Definition py_optional_str (o : option string) : value :=
  match o with Some s => VStr s | None => VNone end.

(** What an f-string prints for a value that is a string or [None]. *)
Definition format_optional_str (o : option string) : string :=
  match o with Some s => s | None => "None" end.

Inductive error_kind : Type :=
| missing | int_type | int_parsing | string_type | list_type | tuple_type.

(** [pydantic.ValidationError]: the fields that failed, in model order, each
    with the kind of its first error. *)
Definition ValidationError := list (string * error_kind).

Inductive exn : Type :=
| CommandParseError (msg : string) (cause : option ValidationError)
| ValueError (msg : string)
| NotImplementedError
| EOFError
| PatternError (pattern : string)   (* [regex.error] *)
| RuntimeError (msg : string).

Inductive result (A : Type) : Type :=
| Return (a : A)
| Raise (e : exn).
Arguments Return {A} a.
Arguments Raise {A} e.

(** [sub] occurs in [s]. *)
Definition contains (s sub : string) : Prop :=
  exists pre post, s = pre ++ sub ++ post.

(** ** The [regex] library: match objects and the matcher interface *)

(** A match object.  [groupdict] has one key per named group of the
    pattern, with [None] for a group that did not take part in the match;
    [captures name] lists every capture of the group in match order. *)
Record Match : Type := {
  groupdict : dict.t (option string);
  captures : string -> list string
}.

(** [match.group(name)], for a name of [groupdict]. *)
Definition group (m : Match) (name : string) : option string :=
  match dict.lookup name (groupdict m) with
  | Some g => g
  | None => None
  end.

Class RegexLibrary : Type := {
  Pattern : Type;
  (** [regex.compile]; [None] when the pattern is malformed *)
  compile : string -> option Pattern;
  (** [Pattern.fullmatch]: the whole string must match *)
  fullmatch : Pattern -> string -> option Match;
  (** [Pattern.match]: a prefix of the string must match *)
  prefixmatch : Pattern -> string -> option Match
}.

(** ** The [pydantic] library: schemas and validation *)

Inductive origin : Type := o_list | o_tuple.

(** The annotations of schema fields: the classes [int], [str] and [list],
    the built-in generic aliases [list[T]] and [tuple[T, ...]] (instances of
    [types.GenericAlias]), their [typing] spellings [typing.List[T]] and
    [typing.Tuple[T, ...]] (which are not), and [typing.Optional[T]]. *)
Inductive type_annotation : Type :=
| t_int
| t_str
| t_list
| t_generic_alias (o : origin) (arg : type_annotation)
| t_typing_alias (o : origin) (arg : type_annotation)
| t_optional (arg : type_annotation).

Record FieldInfo : Type := {
  annotation : type_annotation;
  description : option string;
  default : option value   (* [None]: the field is required *)
}.

Record Schema : Type := {
  schema_doc : option string;              (* [schema.__doc__] *)
  model_fields : dict.t FieldInfo
}.

(** A validated model instance: its fields in declaration order. *)
Definition instance := dict.t value.

Class PydanticCore : Type := {
  (** the lax conversion of a string to an integer *)
  str_as_int : string -> option Z
}.

Fixpoint traverse {A B E} (f : A -> E + B) (l : list A) : E + list B :=
  match l with
  | [] => inr []
  | a :: l' =>
      match f a with
      | inl e => inl e
      | inr b =>
          match traverse f l' with
          | inl e => inl e
          | inr bs => inr (b :: bs)
          end
      end
  end.

Definition wrap (o : origin) (l : list value) : value :=
  match o with o_list => VList l | o_tuple => VTuple l end.

Definition origin_error (o : origin) : error_kind :=
  match o with o_list => list_type | o_tuple => tuple_type end.

Section Validation.
Context {core : PydanticCore}.

(** Validation of one value against an annotation, in pydantic's default
    (lax) mode. *)
Fixpoint validate (t : type_annotation) (v : value) : error_kind + value :=
  match t with
  | t_int =>
      match v with
      | VInt z => inr (VInt z)
      | VStr s =>
          match str_as_int s with
          | Some z => inr (VInt z)
          | None => inl int_parsing
          end
      | _ => inl int_type
      end
  | t_str =>
      match v with
      | VStr s => inr (VStr s)
      | _ => inl string_type
      end
  | t_list =>
      match v with
      | VList l | VTuple l => inr (VList l)
      | _ => inl list_type
      end
  | t_generic_alias o a | t_typing_alias o a =>
      match v with
      | VList l | VTuple l =>
          match traverse (validate a) l with
          | inl e => inl e
          | inr l' => inr (wrap o l')
          end
      | _ => inl (origin_error o)
      end
  | t_optional a =>
      match v with
      | VNone => inr VNone
      | _ => validate a v
      end
  end.

(** One field of [model_validate]: the value given for it is validated,
    a field that was not given takes its default. *)
Definition validate_field (params : dict.t value) (name : string)
    (field : FieldInfo) : error_kind + value :=
  match dict.lookup name params with
  | Some v => validate (annotation field) v
  | None =>
      match default field with
      | Some d => inr d
      | None => inl missing
      end
  end.

Fixpoint validate_fields (params : dict.t value) (fields : dict.t FieldInfo)
    : ValidationError * instance :=
  match fields with
  | [] => ([], [])
  | (name, field) :: fields' =>
      let (errs, inst) := validate_fields params fields' in
      match validate_field params name field with
      | inl e => ((name, e) :: errs, inst)
      | inr v => (errs, (name, v) :: inst)
      end
  end.

(** [schema.model_validate(params)], for a schema that is validated by the
    declared types of its fields alone. *)
Definition model_validate (schema : Schema) (params : dict.t value)
    : ValidationError + instance :=
  match validate_fields params (model_fields schema) with
  | ([], inst) => inr inst
  | (errs, _) => inl errs
  end.
End Validation.

(** ** parser.py *)

(** The interface [CommandParser]: a parser is its two methods. *)
Record CommandParser : Type := {
  parser_parse : Schema -> string -> result instance;
  parser_help_message : string
}.

(** The base class. *)
Definition base_CommandParser : CommandParser := {|
  parser_parse := fun _ _ => Raise NotImplementedError;
  parser_help_message := "No help message available."
|}.

Module RegexCommandParser.
Section RegexCommandParser.
Context {re : RegexLibrary} {core : PydanticCore}.

Record t : Type := {
  pattern : string;
  cpattern : Pattern
}.

(** [__init__]; [regex.compile] raises on a malformed pattern. *)
Definition init (pattern : string) : option t :=
  match compile pattern with
  | Some c => Some {| pattern := pattern; cpattern := c |}
  | None => None
  end.

(** [t is list or (isinstance(t, types.GenericAlias) and t.__origin__ is list)] *)
Definition type_is_list (t : type_annotation) : bool :=
  match t with
  | t_list => true
  | t_generic_alias o_list _ => true
  | _ => false
  end.

(** The dictionary comprehension of [parse].  The keys of [model_fields]
    are distinct, so no entry of the comprehension replaces another. *)
Definition params_of (schema : Schema) (m : Match) : dict.t value :=
  flat_map
    (fun nf : string * FieldInfo =>
       let (name, field) := nf in
       if dict.mem name (groupdict m) then
         [(name,
           if type_is_list (annotation field)
           then VList (map VStr (captures m name))
           else py_optional_str (group m name))]
       else [])
    (model_fields schema).

(** A list type, however it is spelled: the class [list], [list[T]] or
    [typing.List[T]]. *)
Definition is_list_annotation (t : type_annotation) : bool :=
  match t with
  | t_list | t_generic_alias o_list _ | t_typing_alias o_list _ => true
  | _ => false
  end.

(** The value the interface description gives to a field named among
    the groups of the match: for a list type, however it is spelled, all
    the captures of its group, in match order, converted one by one to the
    element type (a bare [list] has none, its elements stay strings); for
    any other type what [group] returns, converted to the declared type. *)
Definition described_value (m : Match) (name : string) (field : FieldInfo)
    (v : value) : Prop :=
  match annotation field with
  | t_list => v = VList (map VStr (captures m name))
  | t_generic_alias o_list elt | t_typing_alias o_list elt =>
      exists vs, v = VList vs
        /\ Forall2 (fun c x => validate elt (VStr c) = inr x)
                   (captures m name) vs
  | t => validate t (py_optional_str (group m name)) = inr v
  end.

(** One field of the described result: named among the groups it has
    its described value, otherwise the default of the schema. *)
Definition described_field (m : Match) (nf : string * FieldInfo)
    (nv : string * value) : Prop :=
  fst nv = fst nf
  /\ if dict.mem (fst nf) (groupdict m)
     then described_value m (fst nf) (snd nf) (snd nv)
     else default (snd nf) = Some (snd nv).

Definition parse (self : t) (schema : Schema) (command : string)
    : result instance :=
  match fullmatch (cpattern self) command with
  | None =>
      Raise (CommandParseError
               ("Command does not match pattern: " ++ pattern self) None)
  | Some m =>
      let params := params_of schema m in
      match model_validate schema params with
      | inr inst => Return inst
      | inl e =>
          Raise (CommandParseError "Parameters failed to validate." (Some e))
      end
  end.

Definition help_message (self : t) : string :=
  "Pattern: " ++ pattern self.

Definition as_parser (self : t) : CommandParser := {|
  parser_parse := parse self;
  parser_help_message := help_message self
|}.
End RegexCommandParser.
End RegexCommandParser.

(** ** Stateful code: a state and exception monad

    A computation takes the state of the objects it can mutate and returns
    its outcome with their new state; what it did before raising stays
    done. *)

Definition M (St A : Type) : Type := St -> result A * St.

Definition ret {St A} (a : A) : M St A := fun s => (Return a, s).

Definition raise {St A} (e : exn) : M St A := fun s => (Raise e, s).

Definition bind {St A B} (c : M St A) (k : A -> M St B) : M St B :=
  fun s =>
    match c s with
    | (Return a, s') => k a s'
    | (Raise e, s') => (Raise e, s')
    end.

Declare Scope monad_scope.
Delimit Scope monad_scope with monad.
Notation "x <- c ;; k" := (bind c (fun x => k))
  (at level 61, c at next level, right associativity) : monad_scope.
Notation "c ;; k" := (bind c (fun _ => k))
  (at level 61, right associativity) : monad_scope.
Local Open Scope monad_scope.

(** ** Strings of the messages *)

Definition nl : string := String (ascii_of_nat 10) EmptyString.
Definition dquote : string := String (ascii_of_nat 34) EmptyString.
Definition no_description : string := "No description available.".
(** [" " * 4] *)
Definition indent : string := "    ".

(** [str(z)] for an integer, which is what [print] writes for it. *)
Definition int_str (z : Z) : string :=
  DecimalString.NilZero.string_of_int (Z.to_int z).

(** [f"Command \"{name}\" not found."] *)
Definition not_found (name : string) : string :=
  "Command " ++ dquote ++ name ++ dquote ++ " not found.".

(** ** [str.split(maxsplit=1)]

    Strings are sequences of code points below 256; [isspace] is
    [str.isspace] on them. *)

Definition isspace (c : ascii) : bool :=
  let n := nat_of_ascii c in
  ((9 <=? n)%nat && (n <=? 13)%nat) || ((28 <=? n)%nat && (n <=? 32)%nat)
  || (n =? 133)%nat || (n =? 160)%nat.

Fixpoint lstrip (s : string) : string :=
  match s with
  | String c s' => if isspace c then lstrip s' else s
  | EmptyString => EmptyString
  end.

(** The longest prefix without white space, and what follows it. *)
Fixpoint take_token (s : string) : string * string :=
  match s with
  | String c s' =>
      if isspace c then (EmptyString, s)
      else let (tok, rest) := take_token s' in (String c tok, rest)
  | EmptyString => (EmptyString, EmptyString)
  end.

Definition split_maxsplit1 (s : string) : list string :=
  match lstrip s with
  | EmptyString => []
  | s1 =>
      let (tok, rest) := take_token s1 in
      match lstrip rest with
      | EmptyString => [tok]
      | rest' => [tok; rest']
      end
  end.

(** ** The world of a run *)

(** What a run can change: the shared data object, of the game's data
    class [D], and the output written by [print]. *)
Record World (D : Type) : Type := {
  data : D;
  stdout : list string
}.
Arguments data {D} w.
Arguments stdout {D} w.

(** [print(s)] *)
Definition print {D} (s : string) : M (World D) unit :=
  fun w => (Return tt, {| data := data w; stdout := stdout w ++ [s] |}).

(** A coroutine function of the data object: awaited, it runs on the world
    to completion, or raises. *)
Definition Task (D : Type) : Type := M (World D) unit.

(** An action: its docstring and its body, which gets the data object and
    the validated parameters. *)
Record Action (D : Type) : Type := {
  action_doc : option string;           (* [action.__doc__] *)
  action_call : instance -> M (World D) unit
}.
Arguments action_doc {D} a.
Arguments action_call {D} a.

(** ** command.py *)

Module Command.
Section Command.
Context {D : Type}.

Record t : Type := {
  schema : Schema;
  parser : CommandParser;
  action : option (Action D)
}.

(** [__init__] *)
Definition init (schema : Schema) (parser : CommandParser) : t :=
  {| schema := schema; parser := parser; action := None |}.

(** The decorator [register_action()] returns: it binds the action and
    gives it back. *)
Definition register_action (action : Action D) : M t (Action D) :=
  fun self =>
    (Return action,
     {| schema := schema self; parser := parser self;
        action := Some action |}).

Definition parse (self : t) (command : string) : result instance :=
  parser_parse (parser self) (schema self) command.

(** The dictionary [param_docs] of [help_message]. *)
Definition param_docs (self : t) : dict.t string :=
  map (fun nf : string * FieldInfo =>
         (fst nf,
          match description (snd nf) with
          | Some d => d
          | None => no_description
          end))
      (model_fields (schema self)).

Definition help_message (self : t) : string :=
  let command_doc :=
    match action self with
    | Some a => format_optional_str (action_doc a)
    | None => no_description
    end in
  let param_docs := param_docs self in
  let t := indent in
  command_doc ++ nl ++ nl ++ "Usage:" ++ nl ++ t
    ++ parser_help_message (parser self) ++ nl ++ nl ++ "Parameters:"
    ++ String.concat ""
         (map (fun nd : string * string =>
                 nl ++ t ++ fst nd ++ ": " ++ snd nd)
              param_docs).

(** [execute(data, params)]; [data] is the data object of the world. *)
Definition execute (self : t) (params : instance) : M (World D) unit :=
  match action self with
  | Some a => action_call a params
  | None => ret tt
  end.
End Command.
Arguments t D : clear implicits.
End Command.

(** [create_command(parser, regex=...)]: the decorator that turns a schema
    into a command. *)
Definition create_command {re : RegexLibrary} {core : PydanticCore} {D}
    (parser : option CommandParser) (regex : option string)
    : result (Schema -> Command.t D) :=
  match parser with
  | Some p => Return (fun schema => Command.init schema p)
  | None =>
      match regex with
      | None => Raise (ValueError "Either parser or regex must be provided.")
      | Some r =>
          match RegexCommandParser.init r with
          | Some p =>
              Return (fun schema =>
                        Command.init schema (RegexCommandParser.as_parser p))
          | None => Raise (PatternError r)
          end
      end
  end.

(** ** game.py *)

(** [task_t = Literal["pre_command", "post_command", "background"]] *)
Inductive task_t : Type := pre_command | post_command | background.

Definition task_eqb (a b : task_t) : bool :=
  match a, b with
  | pre_command, pre_command
  | post_command, post_command
  | background, background => true
  | _, _ => false
  end.

(** [background_delay] is a number of seconds, a rational here. *)
Record GameConfig : Type := {
  background_delay : Q;
  show_help : bool
}.

Definition default_GameConfig : GameConfig :=
  {| background_delay := 1%Q; show_help := true |}.

Module Game.
Section Game.
Context {D : Type}.

(** [commands] holds the command objects in the state they have when the
    loop runs (an action bound after the registration is seen through the
    registry, which holds the same object). *)
Record t : Type := {
  config : GameConfig;
  commands : dict.t (Command.t D);
  tasks : task_t -> option (Task D)
}.

(** [__init__] *)
Definition init (config : GameConfig) : t :=
  {| config := config; commands := []; tasks := fun _ => None |}.

Definition reserved_message : string :=
  "Cannot register a command named " ++ dquote ++ "help" ++ dquote
    ++ " when show_help is True.".

Definition duplicate_message (name : string) : string :=
  "Command with name " ++ dquote ++ name ++ dquote ++ " already registered.".

(** The decorator of [register_command]: [self.commands[name] = command]. *)
Definition register_command_decorator (name : string)
    (command : Command.t D) : M t (Command.t D) :=
  fun self =>
    (Return command,
     {| config := config self;
        commands := dict.set name command (commands self);
        tasks := tasks self |}).

Definition register_command (name : string)
    : M t (Command.t D -> M t (Command.t D)) :=
  fun self =>
    if show_help (config self) && (name =? "help") then
      raise (ValueError reserved_message) self
    else if dict.mem name (commands self) then
      raise (ValueError (duplicate_message name)) self
    else
      ret (register_command_decorator name) self.

(** The decorator of [register_task]: [self.tasks[task_type] = task]. *)
Definition register_task_decorator (task_type : task_t) (task : Task D)
    : M t (Task D) :=
  fun self =>
    (Return task,
     {| config := config self;
        commands := commands self;
        tasks := fun k => if task_eqb k task_type then Some task
                          else tasks self k |}).

Definition register_task (task_type : task_t)
    : M t (Task D -> M t (Task D)) :=
  ret (register_task_decorator task_type).

Definition help_message (self : t) : string :=
  let command_docs :=
    map (fun nc : string * Command.t D =>
           (fst nc,
            match schema_doc (Command.schema (snd nc)) with
            | Some d => d
            | None => no_description
            end))
        (commands self) in
  let t := indent in
  "Commands:"
    ++ String.concat ""
         (map (fun nd : string * string =>
                 nl ++ t ++ fst nd ++ ": " ++ snd nd)
              command_docs).

(** [await self.tasks[k](data)] when [k in self.tasks]. *)
Definition run_task (self : t) (k : task_t) : M (World D) unit :=
  match tasks self k with
  | Some task => task
  | None => ret tt
  end.

(** One turn of the [while True] of [user_loop], on the line that
    [ainput] returned. *)
Definition user_loop_body (self : t) (line : string) : M (World D) unit :=
  let uinput := split_maxsplit1 line in
  match uinput with
  | [] => ret tt
  | uinput0 :: rest =>
      if (uinput0 =? "help") && show_help (config self) then
        match rest with
        | uinput1 :: _ =>
            match dict.lookup uinput1 (commands self) with
            | Some command => print (Command.help_message command)
            | None => print (not_found uinput1)
            end
        | [] => print (help_message self)
        end
      else
        match dict.lookup uinput0 (commands self) with
        | Some command =>
            match Command.parse command (hd "" rest) with
            | Raise (CommandParseError msg _) => print msg
            | Raise e => raise e
            | Return params =>
                run_task self pre_command ;;
                Command.execute command params ;;
                run_task self post_command
            end
        | None => print (not_found uinput0)
        end
  end.

(** [user_loop], on the lines the console delivers; at the end of the
    input [ainput] raises [EOFError].  The prompt is written by the
    console, not by [print]. *)
Fixpoint user_loop (self : t) (lines : list string) : M (World D) unit :=
  match lines with
  | [] => raise EOFError
  | line :: lines' =>
      user_loop_body self line ;;
      user_loop self lines'
  end.
End Game.
Arguments t D : clear implicits.
End Game.

(** [create_game]: the decorator that turns a data class into a game with
    the configuration of the keyword arguments. *)
Definition create_game (D : Type) (config : GameConfig) : Game.t D :=
  Game.init config.

(** ** A matcher for the concrete runs

    A backtracking matcher for a subset of the pattern language: literals,
    [.], character sets with [\d], [\s], [\w] and ranges, groups (named,
    numbered and non-capturing), alternation and the greedy quantifiers.
    It instantiates [RegexLibrary]; the theorems hold for any matcher. *)

Module MiniRegex.
Inductive class_item : Type :=
| c_char (c : ascii)
| c_range (lo hi : ascii)
| c_digit
| c_space
| c_word.

Inductive regex : Type :=
| r_empty
| r_char (c : ascii)
| r_any
| r_set (negated : bool) (items : list class_item)
| r_cat (r1 r2 : regex)
| r_alt (r1 r2 : regex)
| r_repeat (lo : nat) (hi : option nat) (r : regex)
| r_group (name : option string) (r : regex).

Definition between (lo hi : nat) (c : ascii) : bool :=
  let n := nat_of_ascii c in ((lo <=? n)%nat && (n <=? hi)%nat).

Definition isdigit (c : ascii) : bool := between 48 57 c.

Definition isalnum (c : ascii) : bool :=
  isdigit c || between 65 90 c || between 97 122 c.

(** [\w] and [\s] on the code points below 256, by their Unicode
    properties: letters (those of Latin-1 included), decimal digits and the
    underscore; and the white space characters, which do not include the
    separators 28 to 31 that [str.isspace] accepts. *)
Definition isword (c : ascii) : bool :=
  isalnum c || Ascii.eqb c "_"
  || between 170 170 c || between 181 181 c || between 186 186 c
  || between 192 214 c || between 216 246 c || between 248 255 c.

Definition iswhite (c : ascii) : bool :=
  between 9 13 c || between 32 32 c || between 133 133 c
  || between 160 160 c.

Definition item_has (c : ascii) (i : class_item) : bool :=
  match i with
  | c_char c' => Ascii.eqb c c'
  | c_range lo hi => between (nat_of_ascii lo) (nat_of_ascii hi) c
  | c_digit => isdigit c
  | c_space => iswhite c
  | c_word => isword c
  end.

(** The captures of the named groups so far, in match order. *)
Definition caps : Type := dict.t (list string).

Definition add_capture (name : option string) (text : string) (cs : caps)
    : caps :=
  match name with
  | None => cs
  | Some n =>
      dict.set n
        (match dict.lookup n cs with Some l => l ++ [text] | None => [text] end)%list
        cs
  end.

(** The part of [s] read to reach its suffix [s']. *)
Definition consumed (s s' : string) : string :=
  substring 0 (String.length s - String.length s') s.

Definition below (hi : option nat) (n : nat) : bool :=
  match hi with Some h => (n <? h)%nat | None => true end.

(** [run r s cs k]: match [r] at the start of [s], then continue with
    [k] on the rest; the first success in backtracking order wins. *)
Fixpoint run (r : regex) (s : string) (cs : caps)
    (k : string -> caps -> option caps) {struct r} : option caps :=
  match r with
  | r_empty => k s cs
  | r_char c =>
      match s with
      | String c' s' => if Ascii.eqb c c' then k s' cs else None
      | EmptyString => None
      end
  | r_any =>
      match s with
      | String c' s' =>
          if Ascii.eqb c' (ascii_of_nat 10) then None else k s' cs
      | EmptyString => None
      end
  | r_set negated items =>
      match s with
      | String c' s' =>
          if xorb negated (existsb (item_has c') items) then k s' cs
          else None
      | EmptyString => None
      end
  | r_cat r1 r2 => run r1 s cs (fun s' cs' => run r2 s' cs' k)
  | r_alt r1 r2 =>
      match run r1 s cs k with
      | Some x => Some x
      | None => run r2 s cs k
      end
  | r_group name r1 =>
      run r1 s cs (fun s' cs' => k s' (add_capture name (consumed s s') cs'))
  | r_repeat lo hi r1 =>
      (fix loop (fuel n : nat) (s : string) (cs : caps) {struct fuel}
         : option caps :=
         let stop := if (lo <=? n)%nat then k s cs else None in
         match fuel with
         | O => stop
         | S fuel' =>
             if below hi n then
               match
                 run r1 s cs
                   (fun s' cs' =>
                      if (String.length s' <? String.length s)%nat
                      then loop fuel' (S n) s' cs'
                      else if (lo <=? S n)%nat then k s' cs' else None)
               with
               | Some x => Some x
               | None => stop
               end
             else stop
         end) (S (String.length s)) O s cs
  end.

Fixpoint group_names (r : regex) : list string :=
  match r with
  | r_cat r1 r2 | r_alt r1 r2 => (group_names r1 ++ group_names r2)%list
  | r_repeat _ _ r1 => group_names r1
  | r_group (Some n) r1 => n :: group_names r1
  | r_group None r1 => group_names r1
  | _ => []
  end.

Definition no_captures (r : regex) : caps :=
  fold_left (fun cs n => dict.set n [] cs) (group_names r) [].

Definition to_match (cs : caps) : Match := {|
  groupdict := map (fun nl : string * list string =>
                      (fst nl, last (map Some (snd nl)) None)) cs;
  captures := fun name =>
                match dict.lookup name cs with Some l => l | None => [] end
|}.

Definition fullmatch (r : regex) (s : string) : option Match :=
  option_map to_match
    (run r s (no_captures r)
       (fun s' cs =>
          match s' with EmptyString => Some cs | String _ _ => None end)).

Definition prefixmatch (r : regex) (s : string) : option Match :=
  option_map to_match (run r s (no_captures r) (fun _ cs => Some cs)).

(** *** Reading a pattern *)

Fixpoint strip_prefix (p s : string) : option string :=
  match p, s with
  | EmptyString, _ => Some s
  | String a p', String b s' =>
      if Ascii.eqb a b then strip_prefix p' s' else None
  | String _ _, EmptyString => None
  end.

(** The characters before the first [stop], and the rest from it on. *)
Fixpoint take_until (stop : ascii -> bool) (s : string) : string * string :=
  match s with
  | String c s' =>
      if stop c then (EmptyString, s)
      else let (a, b) := take_until stop s' in (String c a, b)
  | EmptyString => (EmptyString, EmptyString)
  end.

Fixpoint digits_value (acc : nat) (s : string) : nat :=
  match s with
  | String c s' => digits_value (10 * acc + (nat_of_ascii c - 48)) s'
  | EmptyString => acc
  end.

(** An escape: [\d], [\s], [\w], or an escaped space or punctuation
    character, which stands for itself.  The other escapes are outside the
    subset. *)
Definition escape_item (c : ascii) : option class_item :=
  if Ascii.eqb c "d" then Some c_digit
  else if Ascii.eqb c "s" then Some c_space
  else if Ascii.eqb c "w" then Some c_word
  else if between 32 126 c && negb (isalnum c) then Some (c_char c)
  else None.

(** A hyphen that would make a range with what precedes it. *)
Definition range_follows (s : string) : bool :=
  match s with
  | String d (String hi _) => Ascii.eqb d "-" && negb (Ascii.eqb hi "]")
  | _ => false
  end.

Definition cons_item (i : class_item)
    (r : option (list class_item * string))
    : option (list class_item * string) :=
  match r with
  | Some (l, s) => Some (i :: l, s)
  | None => None
  end.

(** The items of a character set, up to its closing bracket. *)
Fixpoint p_items (s : string) : option (list class_item * string) :=
  match s with
  | EmptyString => None
  | String c s1 =>
      if Ascii.eqb c "]" then Some ([], s1)
      else if Ascii.eqb c "[" then None
      else if Ascii.eqb c "\" then
        match s1 with
        | String e s2 =>
            match escape_item e with
            | Some i =>
                if range_follows s2 then None else cons_item i (p_items s2)
            | None => None
            end
        | EmptyString => None
        end
      else
        match s1 with
        | String d (String hi s3) =>
            if Ascii.eqb d "-" && negb (Ascii.eqb hi "]") then
              if Ascii.eqb hi "\" || Ascii.eqb hi "["
                 || (nat_of_ascii hi <? nat_of_ascii c)%nat
              then None
              else cons_item (c_range c hi) (p_items s3)
            else cons_item (c_char c) (p_items s1)
        | _ => cons_item (c_char c) (p_items s1)
        end
  end.

(** A character set has at least one item. *)
Definition p_set (negated : bool) (s : string) : option (regex * string) :=
  match p_items s with
  | Some (i :: items, s') => Some (r_set negated (i :: items), s')
  | _ => None
  end.

(** A group name: an identifier. *)
Definition isname (name : string) : bool :=
  match name with
  | String c _ =>
      negb (isdigit c)
      && (fix all (s : string) : bool :=
            match s with
            | String x s' => (isalnum x || Ascii.eqb x "_") && all s'
            | EmptyString => true
            end) name
  | EmptyString => false
  end.

(** A quantifier after the atom [a], if there is one. *)
Definition p_quant (a : regex) (s : string) : regex * string :=
  match s with
  | String c s1 =>
      if Ascii.eqb c "+" then (r_repeat 1 None a, s1)
      else if Ascii.eqb c "*" then (r_repeat 0 None a, s1)
      else if Ascii.eqb c "?" then (r_repeat 0 (Some 1) a, s1)
      else if Ascii.eqb c "{" then
        let (lo, s2) := take_until (fun x => negb (isdigit x)) s1 in
        match lo, strip_prefix "}" s2, strip_prefix "," s2 with
        | String _ _, Some s3, _ =>
            (r_repeat (digits_value 0 lo) (Some (digits_value 0 lo)) a, s3)
        | _, None, Some s3 =>
            let (hi, s4) := take_until (fun x => negb (isdigit x)) s3 in
            match strip_prefix "}" s4 with
            | Some s5 =>
                (r_repeat (digits_value 0 lo)
                   (match hi with
                    | EmptyString => None
                    | _ => Some (digits_value 0 hi)
                    end) a, s5)
            | None => (a, s)
            end
        | _, _, _ => (a, s)
        end
      else (a, s)
  | EmptyString => (a, s)
  end.

Definition closing (wrap : regex -> regex) (r : option (regex * string))
    : option (regex * string) :=
  match r with
  | Some (body, s) =>
      match strip_prefix ")" s with
      | Some s' => Some (wrap body, s')
      | None => None
      end
  | None => None
  end.

Fixpoint p_alt (fuel : nat) (s : string) : option (regex * string) :=
  match fuel with
  | O => None
  | S f =>
      match p_seq f s with
      | Some (r1, s1) =>
          match strip_prefix "|" s1 with
          | Some s2 =>
              match p_alt f s2 with
              | Some (r2, s3) => Some (r_alt r1 r2, s3)
              | None => None
              end
          | None => Some (r1, s1)
          end
      | None => None
      end
  end
with p_seq (fuel : nat) (s : string) : option (regex * string) :=
  match fuel with
  | O => None
  | S f =>
      match s with
      | EmptyString => Some (r_empty, s)
      | String c _ =>
          if Ascii.eqb c "|" || Ascii.eqb c ")" then Some (r_empty, s)
          else
            match p_atom f s with
            | Some (a, s1) =>
                let (q, s2) := p_quant a s1 in
                match p_seq f s2 with
                | Some (r_empty, s3) => Some (q, s3)
                | Some (r, s3) => Some (r_cat q r, s3)
                | None => None
                end
            | None => None
            end
      end
  end
with p_atom (fuel : nat) (s : string) : option (regex * string) :=
  match fuel with
  | O => None
  | S f =>
      match s with
      | EmptyString => None
      | String c s1 =>
          if Ascii.eqb c "(" then
            match strip_prefix "?P<" s1, strip_prefix "?:" s1 with
            | Some s2, _ =>
                let (name, s3) := take_until (fun x => Ascii.eqb x ">") s2 in
                match strip_prefix ">" s3 with
                | Some s4 =>
                    if isname name
                    then closing (r_group (Some name)) (p_alt f s4)
                    else None
                | None => None
                end
            | None, Some s2 => closing (fun r => r) (p_alt f s2)
            | None, None => closing (r_group None) (p_alt f s1)
            end
          else if Ascii.eqb c "[" then
            match strip_prefix "^" s1 with
            | Some s2 => p_set true s2
            | None => p_set false s1
            end
          else if Ascii.eqb c "\" then
            match s1 with
            | String e s2 =>
                match escape_item e with
                | Some (c_char x) => Some (r_char x, s2)
                | Some i => Some (r_set false [i], s2)
                | None => None
                end
            | EmptyString => None
            end
          else if Ascii.eqb c "." then Some (r_any, s1)
          else if Ascii.eqb c "*" || Ascii.eqb c "+" || Ascii.eqb c "?"
                  || Ascii.eqb c "{" || Ascii.eqb c "}"
                  || Ascii.eqb c "^" || Ascii.eqb c "$"
          then None
          else Some (r_char c, s1)
      end
  end.

(** A pattern outside the subset (anchors, other escapes, lazy or
    possessive quantifiers, look-around, flags, back-references) is refused
    like a malformed one. *)
Definition compile (pattern : string) : option regex :=
  match p_alt (4 * String.length pattern + 4) pattern with
  | Some (r, EmptyString) => Some r
  | _ => None
  end.

(** *** Decimal integers *)

(** Digits, with single underscores between them. *)
Fixpoint decimal_value (acc : Z) (s : string) : option Z :=
  match s with
  | String c s' =>
      if isdigit c
      then decimal_value (10 * acc + Z.of_nat (nat_of_ascii c - 48)) s'
      else if Ascii.eqb c "_" then
        match s' with
        | String c' _ => if isdigit c' then decimal_value acc s' else None
        | EmptyString => None
        end
      else None
  | EmptyString => Some acc
  end.

Definition unsigned_decimal (s : string) : option Z :=
  match s with
  | String c _ => if isdigit c then decimal_value 0 s else None
  | EmptyString => None
  end.

(** The conversion of the concrete runs: an optional sign and at least
    one digit, single underscores allowed between digits, no more than 4300
    characters.  The lax conversion of pydantic accepts further spellings
    (white space around the number, a fraction part of zeros), which the
    runs do not use. *)
Definition decimal (s : string) : option Z :=
  if (4300 <? N.of_nat (String.length s))%N then None
  else
    match s with
    | String c s' =>
        if Ascii.eqb c "-" then option_map Z.opp (unsigned_decimal s')
        else if Ascii.eqb c "+" then unsigned_decimal s'
        else unsigned_decimal s
    | EmptyString => None
    end.
End MiniRegex.

Definition mini_regex : RegexLibrary := {|
  Pattern := MiniRegex.regex;
  compile := MiniRegex.compile;
  fullmatch := MiniRegex.fullmatch;
  prefixmatch := MiniRegex.prefixmatch
|}.

Definition decimal_core : PydanticCore := {|
  str_as_int := MiniRegex.decimal
|}.

(** ** The help text of a command, as the interface description lays it
    out: the description, a blank line, [Usage:] with the parser's help
    indented by four spaces, a blank line, and [Parameters:] with one
    indented [name: description] line per field. *)
Definition command_help_text (description usage : string)
    (parameters : list (string * string)) : string :=
  description ++ nl ++ nl ++ "Usage:" ++ nl ++ "    " ++ usage
    ++ nl ++ nl ++ "Parameters:"
    ++ String.concat ""
         (map (fun p : string * string =>
                 nl ++ "    " ++ fst p ++ ": " ++ snd p) parameters).

(** ** Decorators and the setup phase *)

(** [@d] in front of a definition [a]: the decorator expression is
    evaluated, then applied. *)
Definition decorate {St A B} (d : M St (A -> M St B)) (a : A) : M St B :=
  dec <- d ;; dec a.

(** The states of a game made with configuration [cfg] that the methods of
    [Game] can produce.  A decorator that [register_command] returned may be
    applied later, in any state of the same game. *)
Inductive reachable {D : Type} (cfg : GameConfig) : Game.t D -> Prop :=
| reachable_init : reachable cfg (Game.init cfg)
| reachable_command (g0 g : Game.t D) (name : string)
    (dec : Command.t D -> M (Game.t D) (Command.t D)) (command : Command.t D) :
    reachable cfg g0 ->
    fst (Game.register_command name g0) = Return dec ->
    reachable cfg g ->
    reachable cfg (snd (dec command g))
| reachable_task (g : Game.t D) (task_type : task_t) (task : Task D) :
    reachable cfg g ->
    reachable cfg (snd (decorate (Game.register_task task_type) task g)).

(** ** examples/example_game.py *)

Module Example.
Record ExampleGame : Type := {
  timer : Z;
  n_actions : Z;
  counter : Z
}.

Definition new_data : ExampleGame :=
  {| timer := 0; n_actions := 0; counter := 0 |}.

Definition new_world : World ExampleGame :=
  {| data := new_data; stdout := [] |}.

Definition update (f : ExampleGame -> ExampleGame)
    : M (World ExampleGame) unit :=
  fun w => (Return tt, {| data := f (data w); stdout := stdout w |}).

Definition background_task : Task ExampleGame :=
  update (fun d => {| timer := timer d + 1; n_actions := n_actions d;
                      counter := counter d |}).

Definition pre_command_task : Task ExampleGame :=
  update (fun d => {| timer := timer d; n_actions := n_actions d + 1;
                      counter := counter d |}).

Definition add_to_counter (z : Z) : M (World ExampleGame) unit :=
  update (fun d => {| timer := timer d; n_actions := n_actions d;
                      counter := counter d + z |}).

Definition AddCommand_schema : Schema := {|
  schema_doc := Some "A command to add a value to the counter.";
  model_fields :=
    [("value", {| annotation := t_int;
                  description := Some "The value to add to the counter.";
                  default := None |})]
|}.

Definition add_action : Action ExampleGame := {|
  action_doc := Some "Adds the value to the counter.";
  action_call := fun params =>
    match dict.lookup "value" params with
    | Some (VInt z) => add_to_counter z
    | _ => raise (RuntimeError "value")
    end
|}.

Definition AddMultipleCommand_schema : Schema := {|
  schema_doc := Some "A command to add multiple values to the counter.";
  model_fields :=
    [("values", {| annotation := t_generic_alias o_list t_int;
                   description := Some "The values to add to the counter.";
                   default := None |})]
|}.

Definition sum_ints (l : list value) : Z :=
  fold_left (fun acc v => match v with VInt z => acc + z | _ => acc end)%Z
            l 0%Z.

Definition addmul_action : Action ExampleGame := {|
  action_doc := Some "Adds the values to the counter.";
  action_call := fun params =>
    match dict.lookup "values" params with
    | Some (VList l) => add_to_counter (sum_ints l)
    | _ => raise (RuntimeError "values")
    end
|}.

(** A command as the run sees it: made by [create_command(regex=...)]
    from the schema, with its action bound. *)
Definition command (regex : string) (schema : Schema)
    (action : option (Action ExampleGame)) : Command.t ExampleGame :=
  match create_command (re := mini_regex) (core := decimal_core)
          None (Some regex) with
  | Return dec =>
      match action with
      | Some a => snd (Command.register_action a (dec schema))
      | None => dec schema
      end
  | Raise _ => Command.init schema base_CommandParser
  end.

Definition AddCommand : Command.t ExampleGame :=
  command "(?P<value>[\d-]+)" AddCommand_schema (Some add_action).

(** [RegexCommandParser(pattern)] on the matcher of the examples. *)
Definition regex_parser (pattern : string)
    : RegexCommandParser.t (re := mini_regex) :=
  match RegexCommandParser.init (re := mini_regex) pattern with
  | Some p => p
  | None =>
      @RegexCommandParser.Build_t mini_regex pattern
        (MiniRegex.r_empty : @Pattern mini_regex)
  end.

(** The match object of a line the pattern matches in full. *)
Definition match_of (p : RegexCommandParser.t (re := mini_regex))
    (line : string) : Match :=
  match fullmatch (RegexLibrary := mini_regex)
          (RegexCommandParser.cpattern p) line with
  | Some m => m
  | None => {| groupdict := []; captures := fun _ => [] |}
  end.

Definition add_parser := regex_parser "(?P<value>[\d-]+)".
Definition addmul_parser := regex_parser "(?:(?P<values>[\d-]+)\s{0,1})+".
Definition optional_parser := regex_parser "(?P<value>\d+)?".

(** The schema of "add-multiple" with its field spelled
    [typing.List[int]]. *)
Definition TypingListCommand_schema : Schema := {|
  schema_doc := Some "A command to add multiple values to the counter.";
  model_fields :=
    [("values", {| annotation := t_typing_alias o_list t_int;
                   description := Some "The values to add to the counter.";
                   default := None |})]
|}.

(** A schema whose field has a default, for a pattern whose group is
    optional. *)
Definition OptionalCommand_schema : Schema := {|
  schema_doc := None;
  model_fields :=
    [("value", {| annotation := t_optional t_int;
                  description := None;
                  default := Some (VInt 7) |})]
|}.

Definition AddMultipleCommand : Command.t ExampleGame :=
  command "(?:(?P<values>[\d-]+)\s{0,1})+" AddMultipleCommand_schema
    (Some addmul_action).

Definition ViewCommand_schema : Schema := {|
  schema_doc := Some "A command to view a value.";
  model_fields :=
    [("value", {| annotation := t_str;
                  description :=
                    Some ("The value to view. Can be " ++ dquote ++ "counter"
                          ++ dquote ++ ", " ++ dquote ++ "timer" ++ dquote
                          ++ ", or " ++ dquote ++ "n_actions" ++ dquote
                          ++ ".");
                  default := None |})]
|}.

(** [print(getattr(data, params.value))]; the pattern of the command lets
    only the three field names through, any other name has no attribute. *)
Definition view_action : Action ExampleGame := {|
  action_doc := Some "Views the value.";
  action_call := fun params w =>
    match dict.lookup "value" params with
    | Some (VStr name) =>
        if name =? "counter" then print (int_str (counter (data w))) w
        else if name =? "timer" then print (int_str (timer (data w))) w
        else if name =? "n_actions" then print (int_str (n_actions (data w))) w
        else raise (RuntimeError name) w
    | _ => raise (RuntimeError "value") w
    end
|}.

Definition ViewCommand : Command.t ExampleGame :=
  command "(?P<value>counter|timer|n_actions)" ViewCommand_schema
    (Some view_action).

Definition setup : M (Game.t ExampleGame) unit :=
  decorate (Game.register_task background) background_task ;;
  decorate (Game.register_task pre_command) pre_command_task ;;
  decorate (Game.register_command "add") AddCommand ;;
  decorate (Game.register_command "add-multiple") AddMultipleCommand ;;
  decorate (Game.register_command "view") ViewCommand ;;
  ret tt.

Definition game : Game.t ExampleGame :=
  snd (setup (create_game ExampleGame default_GameConfig)).

(** A second game, whose two hooks and single action write their names:
    the command "go" takes no parameters. *)
Definition GoCommand_schema : Schema :=
  {| schema_doc := None; model_fields := [] |}.

Definition go_action : Action ExampleGame :=
  {| action_doc := None; action_call := fun _ => print "action" |}.

Definition GoCommand : Command.t ExampleGame :=
  command "" GoCommand_schema (Some go_action).

Definition traced_setup : M (Game.t ExampleGame) unit :=
  decorate (Game.register_task pre_command) (print "before") ;;
  decorate (Game.register_task post_command) (print "after") ;;
  decorate (Game.register_command "go") GoCommand ;;
  ret tt.

Definition traced_game : Game.t ExampleGame :=
  snd (traced_setup (create_game ExampleGame default_GameConfig)).

(** A command that was given no action. *)
Definition IdleCommand : Command.t ExampleGame :=
  command "" GoCommand_schema None.
End Example.

(** ** game.py: the background loop

    The [while True] of [background_loop] never ends by itself.  Its first
    [turns] turns are embedded: the outcome says whether the coroutine has
    returned or is still in its loop.  [asyncio.sleep] lets time pass and
    leaves the world as it is.  [Game.run], which interleaves this loop
    with the input loop, is not embedded. *)

Inductive progress : Type := Finished | Running.

Definition asyncio_sleep {D} (delay : Q) : M (World D) unit := ret tt.

Fixpoint background_turns {D} (task : Task D) (delay : Q) (turns : nat)
    : M (World D) progress :=
  match turns with
  | O => ret Running
  | S turns' =>
      task ;;
      asyncio_sleep delay ;;
      background_turns task delay turns'
  end.

Definition background_loop {D} (self : Game.t D) (turns : nat)
    : M (World D) progress :=
  match Game.tasks self background with
  | Some task =>
      background_turns task (background_delay (Game.config self)) turns
  | None => ret Finished
  end.

(** ** Predicates on strings and worlds used in the statements *)

Fixpoint all_space (s : string) : bool :=
  match s with
  | String c s' => isspace c && all_space s'
  | EmptyString => true
  end.

Fixpoint no_space (s : string) : bool :=
  match s with
  | String c s' => negb (isspace c) && no_space s'
  | EmptyString => true
  end.

(** The string is not empty and does not start with white space. *)
Definition starts_with_text (s : string) : bool :=
  match s with
  | String c _ => negb (isspace c)
  | EmptyString => false
  end.

(** A coroutine that returns normally from every world. *)
Definition never_raises {D A} (c : M (World D) A) : Prop :=
  forall w, exists a w', c w = (Return a, w').

(** Whatever the [parse] of a command of the game raises is a
    [CommandParseError]. *)
Definition parse_errors_only {D} (g : Game.t D) : Prop :=
  forall name command line e,
    In (name, command) (Game.commands g) ->
    Command.parse command line = Raise e ->
    exists msg cause, e = CommandParseError msg cause.

(** No hook and no action of the game raises. *)
Definition quiet_hooks {D} (g : Game.t D) : Prop :=
  (forall k task, Game.tasks g k = Some task -> never_raises task)
  /\ forall name command a params,
       In (name, command) (Game.commands g) ->
       Command.action command = Some a ->
       never_raises (action_call a params).

(** * Properties *)

(** ** Dictionaries *)

Module dict_facts.
Section dict_facts.
Context {V : Type}.
Implicit Types (d : dict.t V) (k : string) (v : V).

Lemma mem_lookup k d :
  dict.mem k d = true <-> exists v, dict.lookup k d = Some v.
Proof.
  unfold dict.mem. destruct (dict.lookup k d) as [v|]; split.
  - intros _. now exists v.
  - reflexivity.
  - discriminate.
  - intros [v H]. discriminate.
Qed.

Lemma set_fresh k v d :
  dict.mem k d = false -> dict.set k v d = (d ++ [(k, v)])%list.
Proof.
  unfold dict.mem. induction d as [|[k' v'] d IH]; simpl; intros H.
  - reflexivity.
  - destruct (String.eqb k k'); [discriminate|].
    now rewrite IH.
Qed.

Lemma lookup_set_other k k' v d :
  k <> k' -> dict.lookup k (dict.set k' v d) = dict.lookup k d.
Proof.
  intros Hne. induction d as [|[k0 v0] d IH]; simpl.
  - now rewrite (proj2 (String.eqb_neq k k') Hne).
  - destruct (String.eqb k' k0) eqn:E; simpl.
    + apply String.eqb_eq in E; subst k0.
      now rewrite (proj2 (String.eqb_neq k k') Hne).
    + now rewrite IH.
Qed.

End dict_facts.
End dict_facts.

(** ** The setup phase: invariants of the registry *)

Section Registry.
Context {D : Type}.
Implicit Types (g : Game.t D) (cfg : GameConfig).

(** What a successful [register_command] call tells. *)
Lemma register_command_returns g name dec :
  fst (Game.register_command name g) = Return dec ->
  dec = Game.register_command_decorator name
  /\ (show_help (Game.config g) && (name =? "help"))%bool = false
  /\ dict.mem name (Game.commands g) = false.
Proof.
  unfold Game.register_command.
  destruct (show_help (Game.config g) && (name =? "help"))%bool;
    [simpl; discriminate|].
  destruct (dict.mem name (Game.commands g)); [simpl; discriminate|].
  simpl. intros H. injection H as <-. auto.
Qed.

Lemma reachable_config cfg g : reachable cfg g -> Game.config g = cfg.
Proof.
  induction 1 as [|g0 g name dec command H0 IH0 Hdec Hg IHg
                  |g task_type task Hg IHg].
  - reflexivity.
  - apply register_command_returns in Hdec as (-> & _ & _). exact IHg.
  - exact IHg.
Qed.

(** While help is enabled, "help" is never a key of the registry. *)
Lemma reachable_help_free cfg g :
  reachable cfg g -> show_help cfg = true ->
  dict.lookup "help" (Game.commands g) = None.
Proof.
  intros Hr Hhelp.
  induction Hr as [|g0 g name dec command H0 IH0 Hdec Hg IHg
                   |g task_type task Hg IHg].
  - reflexivity.
  - apply register_command_returns in Hdec as (-> & Hname & _).
    rewrite (reachable_config H0), Hhelp in Hname. simpl in Hname.
    simpl. rewrite dict_facts.lookup_set_other; [exact IHg|].
    intros <-. now rewrite String.eqb_refl in Hname.
  - exact IHg.
Qed.

(** A registered name never takes the help branch of the loop. *)
Lemma registered_not_help cfg g name command :
  reachable cfg g ->
  dict.lookup name (Game.commands g) = Some command ->
  ((name =? "help") && show_help (Game.config g))%bool = false.
Proof.
  intros Hr Hc. rewrite (reachable_config Hr).
  destruct (show_help cfg) eqn:Hh; [|apply andb_false_r].
  destruct (String.eqb_spec name "help") as [->|]; [|reflexivity].
  rewrite (reachable_help_free Hr Hh) in Hc. discriminate.
Qed.
End Registry.

(** The two games of the examples are states the setup can reach. *)
Lemma example_game_reachable : reachable default_GameConfig Example.game.
Proof.
  set (g0 := create_game Example.ExampleGame default_GameConfig).
  set (g1 := snd (decorate (Game.register_task background)
                    Example.background_task g0)).
  set (g2 := snd (decorate (Game.register_task pre_command)
                    Example.pre_command_task g1)).
  set (g3 := snd (Game.register_command_decorator "add"
                    Example.AddCommand g2)).
  assert (H0 : reachable default_GameConfig g0) by apply reachable_init.
  assert (H1 : reachable default_GameConfig g1) by now apply reachable_task.
  assert (H2 : reachable default_GameConfig g2) by now apply reachable_task.
  assert (H3 : reachable default_GameConfig g3).
  { apply (@reachable_command _ _ g2 g2 "add"
             (Game.register_command_decorator "add") Example.AddCommand);
      auto. }
  set (g4 := snd (Game.register_command_decorator "add-multiple"
                    Example.AddMultipleCommand g3)).
  assert (H4 : reachable default_GameConfig g4).
  { apply (@reachable_command _ _ g3 g3 "add-multiple"
             (Game.register_command_decorator "add-multiple")
             Example.AddMultipleCommand); auto. }
  apply (@reachable_command _ _ g4 g4 "view"
           (Game.register_command_decorator "view") Example.ViewCommand);
    auto.
Qed.

Lemma traced_game_reachable : reachable default_GameConfig Example.traced_game.
Proof.
  set (g0 := create_game Example.ExampleGame default_GameConfig).
  set (g1 := snd (decorate (Game.register_task pre_command)
                    (print "before") g0)).
  set (g2 := snd (decorate (Game.register_task post_command)
                    (print "after") g1)).
  assert (H0 : reachable default_GameConfig g0) by apply reachable_init.
  assert (H1 : reachable default_GameConfig g1) by now apply reachable_task.
  assert (H2 : reachable default_GameConfig g2) by now apply reachable_task.
  apply (@reachable_command _ _ g2 g2 "go"
           (Game.register_command_decorator "go") Example.GoCommand); auto.
Qed.

(** ** game.py: registration *)

Section Registration.
Context {D : Type}.
Implicit Types (g : Game.t D) (cfg : GameConfig) (command : Command.t D).

(** C3.  In a game the setup can reach, registering a command under a
    name that is already a key of the registry fails with the "already
    registered" [ValueError] (the spec's DuplicateCommandError);
    registering under "help" while help is shown fails with the "cannot
    register" [ValueError] (the spec's ReservedNameError); in every other
    case the command is inserted, as the last entry, and the call
    returns it. *)
Theorem C3_register_command cfg g name command :
  reachable cfg g ->
  (dict.mem name (Game.commands g) = true ->
   decorate (Game.register_command name) command g
   = (Raise (ValueError (Game.duplicate_message name)), g))
  /\ (show_help (Game.config g) = true -> name = "help" ->
      decorate (Game.register_command name) command g
      = (Raise (ValueError Game.reserved_message), g))
  /\ (dict.mem name (Game.commands g) = false ->
      ~ (show_help (Game.config g) = true /\ name = "help") ->
      decorate (Game.register_command name) command g
      = (Return command,
         {| Game.config := Game.config g;
            Game.commands := (Game.commands g ++ [(name, command)])%list;
            Game.tasks := Game.tasks g |})).
Proof.
  intros Hr. unfold decorate, bind, Game.register_command.
  repeat split.
  - intros Hmem.
    destruct (show_help (Game.config g) && (name =? "help"))%bool eqn:E.
    + apply andb_prop in E as [Hh Hn]. apply String.eqb_eq in Hn. subst.
      rewrite (reachable_config Hr) in Hh.
      apply dict_facts.mem_lookup in Hmem as [c Hc].
      rewrite (reachable_help_free Hr Hh) in Hc. discriminate.
    + now rewrite Hmem.
  - intros Hh ->. now rewrite Hh.
  - intros Hmem Hnot.
    destruct (show_help (Game.config g) && (name =? "help"))%bool eqn:E.
    + apply andb_prop in E as [Hh Hn]. apply String.eqb_eq in Hn. tauto.
    + rewrite Hmem. unfold ret, Game.register_command_decorator.
      now rewrite dict_facts.set_fresh by exact Hmem.
Qed.

(** C10.  A registration that fails leaves the game as it was: the
    exception comes from [register_command] itself, before the decorator
    that inserts is made, so no entry is added or replaced. *)
Theorem C10_rejected_registration_atomic g name command e g' :
  decorate (Game.register_command name) command g = (Raise e, g') ->
  g' = g
  /\ Game.register_command name g = (Raise e, g)
  /\ Game.commands g' = Game.commands g.
Proof.
  unfold decorate, bind, Game.register_command.
  destruct (show_help (Game.config g) && (name =? "help"))%bool.
  - unfold raise. intros H. injection H as <- <-. auto.
  - destruct (dict.mem name (Game.commands g)).
    + unfold raise. intros H. injection H as <- <-. auto.
    + unfold ret, Game.register_command_decorator. discriminate.
Qed.
End Registration.

Lemma C3_witness :
  decorate (Game.register_command "add") Example.GoCommand Example.game
  = (Raise (ValueError (Game.duplicate_message "add")),
     Example.game)
  /\ decorate (Game.register_command "help") Example.GoCommand Example.game
     = (Raise (ValueError Game.reserved_message),
        Example.game)
  /\ fst (decorate (Game.register_command "go") Example.GoCommand Example.game)
     = Return Example.GoCommand.
Proof.
  destruct (C3_register_command "add" Example.GoCommand example_game_reachable)
    as (Hdup & _ & _).
  destruct (C3_register_command "help" Example.GoCommand example_game_reachable)
    as (_ & Hres & _).
  destruct (C3_register_command "go" Example.GoCommand example_game_reachable)
    as (_ & _ & Hnew).
  split; [apply Hdup; reflexivity|].
  split; [apply Hres; reflexivity|].
  rewrite Hnew; [reflexivity|reflexivity|].
  intros [_ Hname]. discriminate.
Defined.

Lemma C10_witness :
  snd (decorate (Game.register_command "add") Example.GoCommand Example.game)
  = Example.game.
Proof.
  refine (proj1 (@C10_rejected_registration_atomic _ Example.game "add"
                   Example.GoCommand
                   (ValueError (Game.duplicate_message "add"))
                   _ _)).
  reflexivity.
Defined.

(** ** command.py: execution *)

(** C6.  A command whose action slot is unbound executes as a no-op: for
    every parameter record and every world, [execute] returns normally and
    the world (the shared data object and the output) is the one it
    started from. *)
Theorem C6_execute_without_action {D} (command : Command.t D)
    (params : instance) (w : World D) :
  Command.action command = None ->
  Command.execute command params w = (Return tt, w).
Proof.
  intros Hnone. unfold Command.execute. now rewrite Hnone.
Qed.

Lemma C6_witness :
  Command.execute Example.IdleCommand [("value", VInt 5)] Example.new_world
  = (Return tt, Example.new_world).
Proof.
  apply C6_execute_without_action. reflexivity.
Defined.

(** ** game.py: the input loop *)

Section UserLoop.
Context {D : Type}.
Implicit Types (g : Game.t D) (cfg : GameConfig) (command : Command.t D)
  (w : World D).

(** The turn of a line that names a registered command. *)
Lemma user_loop_body_command cfg g line uinput0 rest command :
  reachable cfg g ->
  split_maxsplit1 line = uinput0 :: rest ->
  dict.lookup uinput0 (Game.commands g) = Some command ->
  Game.user_loop_body g line
  = match Command.parse command (hd "" rest) with
    | Raise (CommandParseError msg _) => print msg
    | Raise e => raise e
    | Return params =>
        Game.run_task g pre_command ;;
        Command.execute command params ;;
        Game.run_task g post_command
    end.
Proof.
  intros Hr Hsplit Hc. unfold Game.user_loop_body.
  now rewrite Hsplit, (registered_not_help _ Hr Hc), Hc.
Qed.

(** C4.  When the line names a registered command and parses, and a
    before-command hook [B], the action [A] and an after-command hook [H]
    are bound, the turn of the loop is [B], then [A] on the parsed
    parameters, then [H]: each runs once, on the world the previous one
    left, and the next starts only when the previous one has returned. *)
Theorem C4_hooks_run_in_order cfg g line uinput0 rest command params
    (B H : Task D) (A : Action D) w :
  reachable cfg g ->
  split_maxsplit1 line = uinput0 :: rest ->
  dict.lookup uinput0 (Game.commands g) = Some command ->
  Command.parse command (hd "" rest) = Return params ->
  Game.tasks g pre_command = Some B ->
  Command.action command = Some A ->
  Game.tasks g post_command = Some H ->
  Game.user_loop_body g line w = (B ;; action_call A params ;; H) w.
Proof.
  intros Hr Hsplit Hc Hparse HB HA HH.
  rewrite (user_loop_body_command _ Hr Hsplit Hc), Hparse.
  unfold Game.run_task, Command.execute. now rewrite HB, HA, HH.
Qed.

(** C5.  When the line names a registered command and its [parse] raises
    [CommandParseError], the turn prints the message of the error and
    nothing else happens: the data object is untouched, whatever the
    hooks and the action are, and the loop goes on with the next line. *)
Theorem C5_parse_error_is_reported cfg g line uinput0 rest command msg cause
    lines w :
  reachable cfg g ->
  split_maxsplit1 line = uinput0 :: rest ->
  dict.lookup uinput0 (Game.commands g) = Some command ->
  Command.parse command (hd "" rest) = Raise (CommandParseError msg cause) ->
  Game.user_loop_body g line w
  = (Return tt, {| data := data w; stdout := stdout w ++ [msg] |})
  /\ Game.user_loop g (line :: lines) w
     = Game.user_loop g lines
         {| data := data w; stdout := stdout w ++ [msg] |}.
Proof.
  intros Hr Hsplit Hc Hparse.
  assert (Hbody : Game.user_loop_body g line w
                  = (Return tt,
                     {| data := data w; stdout := stdout w ++ [msg] |})).
  { now rewrite (user_loop_body_command _ Hr Hsplit Hc), Hparse. }
  split; [exact Hbody|].
  simpl. unfold bind at 1. now rewrite Hbody.
Qed.

(** C9.  While help is shown, "help" is not a key of the registry, so
    the line "help help" prints the text Command, a double quote, help, a
    double quote, not found and a full stop (the double quote is the
    character 34); and [help] with an argument prints the help of a
    command exactly when the argument is a registered name, and otherwise
    the same text with the argument between the quotes. *)
Theorem C9_help_on_help cfg g w :
  reachable cfg g ->
  show_help cfg = true ->
  Game.user_loop_body g "help help" w
  = (Return tt,
     {| data := data w;
        stdout := (stdout w
                   ++ [("Command "
                        ++ String "034"%char
                             ("help" ++ String "034"%char " not found."))
                       %string])%list |})
  /\ dict.lookup "help" (Game.commands g) = None
  /\ forall line topic rest,
       split_maxsplit1 line = "help" :: topic :: rest ->
       Game.user_loop_body g line w
       = print (match dict.lookup topic (Game.commands g) with
                | Some command => Command.help_message command
                | None =>
                    "Command "
                    ++ String "034"%char
                         (topic ++ String "034"%char " not found.")
                end) w.
Proof.
  intros Hr Hhelp.
  assert (Hfree := reachable_help_free Hr Hhelp).
  assert (Htopic : forall line topic rest,
             split_maxsplit1 line = "help" :: topic :: rest ->
             Game.user_loop_body g line w
             = print (match dict.lookup topic (Game.commands g) with
                      | Some command => Command.help_message command
                      | None =>
                          "Command "
                          ++ String "034"%char
                               (topic ++ String "034"%char " not found.")
                      end) w).
  { intros line topic rest Hsplit. unfold Game.user_loop_body.
    rewrite Hsplit, (reachable_config Hr), Hhelp. simpl.
    now destruct (dict.lookup topic (Game.commands g)). }
  split; [|split]; [|exact Hfree|exact Htopic].
  rewrite (Htopic "help help" "help" []) by reflexivity.
  now rewrite Hfree.
Qed.
End UserLoop.

Lemma C4_witness :
  Game.user_loop_body Example.traced_game "go" Example.new_world
  = (Return tt,
     {| data := Example.new_data; stdout := ["before"; "action"; "after"] |}).
Proof.
  rewrite (@C4_hooks_run_in_order _ default_GameConfig Example.traced_game
             "go" "go" [] Example.GoCommand []
             (print "before") (print "after") Example.go_action
             Example.new_world traced_game_reachable);
    reflexivity.
Defined.

Lemma C5_witness :
  Game.user_loop_body Example.game "add abc" Example.new_world
  = (Return tt,
     {| data := Example.new_data;
        stdout := ["Command does not match pattern: (?P<value>[\d-]+)"] |}).
Proof.
  refine (proj1 (@C5_parse_error_is_reported _ default_GameConfig Example.game
                   "add abc" "add" ["abc"] Example.AddCommand
                   "Command does not match pattern: (?P<value>[\d-]+)" None
                   [] Example.new_world example_game_reachable _ _ _));
    reflexivity.
Defined.

Lemma C9_witness :
  Game.user_loop_body Example.game "help help" Example.new_world
  = (Return tt,
     {| data := Example.new_data;
        stdout := [("Command "
                    ++ String "034"%char
                         ("help" ++ String "034"%char " not found."))
                   %string] |}).
Proof.
  refine (proj1 (@C9_help_on_help _ default_GameConfig Example.game
                   Example.new_world example_game_reachable _)).
  reflexivity.
Defined.

(** ** pydantic: what validation returns *)

Lemma Forall2_map_l {A B C} (R : B -> C -> Prop) (f : A -> B) l l' :
  Forall2 R (map f l) l' <-> Forall2 (fun a c => R (f a) c) l l'.
Proof.
  revert l'. induction l as [|a l IH]; intros l'; simpl.
  - split; intros H; inversion H; constructor.
  - split; intros H; inversion H; subst; constructor; auto; now apply IH.
Qed.

Lemma Forall2_iff_In {A B} (P Q : A -> B -> Prop) l l' :
  (forall a, In a l -> forall b, P a b <-> Q a b) ->
  Forall2 P l l' <-> Forall2 Q l l'.
Proof.
  revert l'. induction l as [|a l IH]; intros l' HPQ.
  - split; intros H; inversion H; constructor.
  - assert (Hl : forall a0, In a0 l -> forall b, P a0 b <-> Q a0 b)
      by (intros a0 Ha0; apply HPQ; now right).
    split; intros H; inversion H; subst; constructor;
      try (apply (HPQ a); [now left|assumption]);
      now apply (IH _ Hl).
Qed.

Lemma traverse_Forall2 {A B E} (f : A -> E + B) l l' :
  traverse f l = inr l' <-> Forall2 (fun a b => f a = inr b) l l'.
Proof.
  revert l'. induction l as [|a l IH]; intros l'; simpl.
  - split.
    + intros H. injection H as <-. constructor.
    + intros H. inversion H. reflexivity.
  - destruct (f a) as [e|b] eqn:Ea.
    + split; [discriminate|]. intros H. inversion H; subst. congruence.
    + destruct (traverse f l) as [e|bs] eqn:El.
      * split; [discriminate|]. intros H. inversion H; subst.
        match goal with H' : Forall2 _ l _ |- _ => apply IH in H' end.
        discriminate.
      * split.
        -- intros H. injection H as <-. constructor; [exact Ea|].
           now apply IH.
        -- intros H. inversion H; subst.
           match goal with H' : Forall2 _ l _ |- _ => apply IH in H' end.
           congruence.
Qed.

Section ValidationFacts.
Context {core : PydanticCore}.

Lemma validate_fields_ok params fields inst :
  validate_fields params fields = ([], inst)
  <-> Forall2 (fun (nf : string * FieldInfo) (nv : string * value) =>
                 fst nv = fst nf
                 /\ validate_field params (fst nf) (snd nf) = inr (snd nv))
              fields inst.
Proof.
  revert inst. induction fields as [|[name field] fields IH]; intros inst.
  - simpl. split.
    + intros H. injection H as <-. constructor.
    + intros H. inversion H. reflexivity.
  - simpl. destruct (validate_fields params fields) as [errs inst'].
    destruct (validate_field params name field) as [e|v] eqn:Ev.
    + split; [discriminate|]. intros H. inversion H; subst. simpl in *.
      intuition congruence.
    + split.
      * intros H. injection H as -> <-.
        constructor; [simpl; auto|]. now apply IH.
      * intros H. inversion H as [|? [n v'] ? inst'' [Hn Hv] Hrest]; subst.
        simpl in *. subst n. rewrite Ev in Hv. injection Hv as <-.
        apply IH in Hrest. now injection Hrest as -> ->.
Qed.

Lemma model_validate_ok schema params inst :
  model_validate schema params = inr inst
  <-> validate_fields params (model_fields schema) = ([], inst).
Proof.
  unfold model_validate.
  destruct (validate_fields params (model_fields schema)) as [[|e errs] i].
  - split; intros H; now injection H as <-.
  - split; discriminate.
Qed.
End ValidationFacts.

(** ** parser.py: the regular-expression parser *)

Lemma contains_suffix (pre s : string) : contains (pre ++ s) s.
Proof.
  exists pre, "". f_equal. induction s as [|c s IH]; simpl; congruence.
Qed.

Lemma lookup_unique_key {V} (d : dict.t V) k v :
  NoDup (dict.keys d) -> In (k, v) d -> dict.lookup k d = Some v.
Proof.
  induction d as [|[k0 v0] d IH]; simpl; intros Hnd Hin; [tauto|].
  inversion Hnd as [|? ? Hk0 Hnd']; subst.
  destruct Hin as [Heq|Hin].
  - injection Heq as -> ->. now rewrite String.eqb_refl.
  - destruct (String.eqb_spec k k0) as [->|Hne].
    + exfalso. apply Hk0. now apply (in_map fst) in Hin.
    + now apply IH.
Qed.

Section RegexParserFacts.
Context {re : RegexLibrary} {core : PydanticCore}.
Import RegexCommandParser.
Implicit Types (self : RegexCommandParser.t) (schema : Schema) (m : Match).

(** The entry of the parameter dictionary for a name: present exactly
    when the name is a key of [groupdict] and a field of the schema. *)
Lemma lookup_params_of schema m name :
  dict.lookup name (params_of schema m)
  = if dict.mem name (groupdict m)
    then option_map
           (fun field =>
              if type_is_list (annotation field)
              then VList (map VStr (captures m name))
              else py_optional_str (group m name))
           (dict.lookup name (model_fields schema))
    else None.
Proof.
  unfold params_of.
  induction (model_fields schema) as [|[n f] fields IH]; simpl.
  - now destruct (dict.mem name (groupdict m)).
  - destruct (String.eqb_spec name n) as [->|Hne].
    + destruct (dict.mem n (groupdict m)) eqn:Hmem; simpl.
      * now rewrite String.eqb_refl.
      * rewrite IH. reflexivity.
    + destruct (dict.mem n (groupdict m)); simpl.
      * rewrite (proj2 (String.eqb_neq name n) Hne). exact IH.
      * exact IH.
Qed.

Lemma validate_described m name field v :
  is_list_annotation (annotation field) = type_is_list (annotation field) ->
  validate (annotation field)
    (if type_is_list (annotation field)
     then VList (map VStr (captures m name))
     else py_optional_str (group m name)) = inr v
  <-> described_value m name field v.
Proof.
  unfold described_value.
  destruct (annotation field) as [| | |[|] elt|[|] elt|elt]; simpl;
    intros Hspelled; try discriminate; try reflexivity.
  - split; intros H; [now injection H as <-|now subst].
  - destruct (traverse (validate elt) (map VStr (captures m name)))
      as [e|vs] eqn:Et.
    + split; [discriminate|]. intros (vs & _ & Hall).
      apply Forall2_map_l with (f := VStr) (R := fun a x => validate elt a = inr x)
        in Hall.
      apply traverse_Forall2 in Hall. congruence.
    + apply traverse_Forall2, Forall2_map_l in Et.
      split.
      * intros H. injection H as <-. now exists vs.
      * intros (vs' & -> & Hall).
        apply Forall2_map_l with (f := VStr)
          (R := fun a x => validate elt a = inr x) in Hall.
        apply traverse_Forall2 in Hall.
        apply Forall2_map_l with (f := VStr)
          (R := fun a x => validate elt a = inr x) in Et.
        apply traverse_Forall2 in Et. congruence.
Qed.

(** C1, amended.  [parse] returns exactly when the whole line matches the
    pattern and the captured parameters validate.  When the line does not
    match, it raises a [CommandParseError] whose message ends with the
    pattern; when the line matches and validation fails, it raises one
    [CommandParseError], "Parameters failed to validate.", whose cause is
    the validation error. *)
Theorem C1_parse_outcome self schema line :
  ((exists inst, parse self schema line = Return inst)
   <-> exists m, fullmatch (cpattern self) line = Some m
         /\ exists inst, model_validate schema (params_of schema m) = inr inst)
  /\ (fullmatch (cpattern self) line = None ->
      parse self schema line
      = Raise (CommandParseError
                 ("Command does not match pattern: " ++ pattern self) None)
      /\ contains ("Command does not match pattern: " ++ pattern self)
                  (pattern self))
  /\ (forall m e,
        fullmatch (cpattern self) line = Some m ->
        model_validate schema (params_of schema m) = inl e ->
        parse self schema line
        = Raise (CommandParseError "Parameters failed to validate." (Some e))).
Proof.
  unfold parse. repeat split.
  - intros [inst H].
    destruct (fullmatch (cpattern self) line) as [m|]; [|discriminate].
    exists m. split; [reflexivity|].
    destruct (model_validate schema (params_of schema m)) as [e|i];
      [discriminate|]. now exists i.
  - intros (m & -> & inst & ->). now exists inst.
  - now rewrite H.
  - apply contains_suffix.
  - intros m e -> ->. reflexivity.
Qed.

(** Where every list field of the schema is spelled [list] or [list[T]]
    (and the field names, keys of a dictionary, are distinct), a line that
    the pattern matches in full parses to a record exactly when the record
    has, field by field in declaration order, for a field named among the
    groups of the match its described value, and for a field that is not
    named among the groups its default. *)
Lemma parse_result_described self schema line m inst :
  NoDup (dict.keys (model_fields schema)) ->
  (forall name field,
     In (name, field) (model_fields schema) ->
     is_list_annotation (annotation field) = type_is_list (annotation field)) ->
  fullmatch (cpattern self) line = Some m ->
  parse self schema line = Return inst
  <-> Forall2 (described_field m) (model_fields schema) inst.
Proof.
  intros Hnd Hspelled Hm. unfold parse. rewrite Hm.
  transitivity (model_validate schema (params_of schema m) = inr inst).
  { destruct (model_validate schema (params_of schema m)); split;
      congruence. }
  rewrite model_validate_ok, validate_fields_ok.
  apply Forall2_iff_In. intros [name field] Hin [n v]. simpl.
  unfold described_field, validate_field. simpl.
  rewrite lookup_params_of, (@lookup_unique_key _ _ _ _ Hnd Hin).
  destruct (dict.mem name (groupdict m)) eqn:Hmem; simpl.
  - now rewrite (@validate_described m name field v (Hspelled _ _ Hin)).
  - destruct (default field); split; intros [? H]; split;
      congruence.
Qed.

(** A field annotated [typing.List[T]] is not a list field for
    [type_is_list]: it is given what [group] returns, which is no list,
    and never validates. *)
Lemma typing_alias_never_validates o elt (captured : option string) :
  type_is_list (t_typing_alias o elt) = false
  /\ validate (t_typing_alias o elt) (py_optional_str captured)
     = inl (origin_error o).
Proof. now destruct captured. Qed.

(** C7, amended.  A singular field whose group is in the pattern but
    took no part in the match is not absent from the dictionary handed to
    validation: it is there with the value [None], which validation
    checks against the declared type, and the default is not used.  The
    field is absent, and its default applies, when the pattern has no
    group of that name. *)
Theorem C7_unmatched_group_is_None schema m name field :
  dict.lookup name (model_fields schema) = Some field ->
  type_is_list (annotation field) = false ->
  (dict.mem name (groupdict m) = true -> group m name = None ->
   dict.lookup name (params_of schema m) = Some VNone
   /\ validate_field (params_of schema m) name field
      = validate (annotation field) VNone)
  /\ (dict.mem name (groupdict m) = false ->
      dict.lookup name (params_of schema m) = None
      /\ validate_field (params_of schema m) name field
         = match default field with
           | Some d => inr d
           | None => inl missing
           end).
Proof.
  intros Hfield Hsingle. unfold validate_field.
  rewrite lookup_params_of, Hfield. simpl. rewrite Hsingle.
  split.
  - intros -> ->. simpl. auto.
  - intros ->. auto.
Qed.
End RegexParserFacts.

(** The parser of "add" refuses a line of which it matches only a prefix. *)
Lemma C1_witness :
  prefixmatch (RegexLibrary := mini_regex)
    (RegexCommandParser.cpattern Example.add_parser) "5 abc" <> None
  /\ RegexCommandParser.parse (core := decimal_core) Example.add_parser
       Example.AddCommand_schema "5 abc"
     = Raise (CommandParseError
                "Command does not match pattern: (?P<value>[\d-]+)" None).
Proof.
  split; [discriminate|].
  apply (proj1 (proj2 (C1_parse_outcome (core := decimal_core)
                         Example.add_parser Example.AddCommand_schema
                         "5 abc"))).
  reflexivity.
Defined.

(** C1 as it is worded fails: "1-2" matches the pattern of "add" in full,
    and [parse] raises, because "1-2" is not an integer. *)
Lemma C1_counterexample :
  (exists m, fullmatch (RegexLibrary := mini_regex)
               (RegexCommandParser.cpattern Example.add_parser) "1-2" = Some m)
  /\ RegexCommandParser.parse (core := decimal_core) Example.add_parser
       Example.AddCommand_schema "1-2"
     = Raise (CommandParseError "Parameters failed to validate."
                (Some [("value", int_parsing)])).
Proof.
  split; [eexists|]; reflexivity.
Qed.

Lemma parse_result_described_example :
  RegexCommandParser.parse (core := decimal_core) Example.addmul_parser
    Example.AddMultipleCommand_schema "1 2 3"
  = Return [("values", VList [VInt 1; VInt 2; VInt 3])]
  /\ Forall2
       (RegexCommandParser.described_field (core := decimal_core)
          (Example.match_of Example.addmul_parser "1 2 3"))
       (model_fields Example.AddMultipleCommand_schema)
       [("values", VList [VInt 1; VInt 2; VInt 3])].
Proof.
  split; [reflexivity|].
  apply (@parse_result_described mini_regex decimal_core
           Example.addmul_parser Example.AddMultipleCommand_schema "1 2 3"
           (Example.match_of Example.addmul_parser "1 2 3")).
  - repeat constructor. simpl. tauto.
  - intros name field [H|[]]. now injection H as <- <-.
  - reflexivity.
  - reflexivity.
Defined.

(** C2.  A field declared [typing.List[int]] has a list type, and
    [type_is_list], which its docstring says is true of a list type, is
    false of it.  On the pattern of "add-multiple" and the line "1 2 3",
    which the pattern matches in full with the captures "1", "2" and "3"
    of the group, the record the claim describes has the list 1, 2, 3 for
    the field; the code hands validation the text "3" that [group]
    returns, and [parse] raises instead of producing that record. *)
Theorem C2_typing_list_field_is_not_collected :
  fullmatch (RegexLibrary := mini_regex)
    (RegexCommandParser.cpattern Example.addmul_parser) "1 2 3"
  = Some (Example.match_of Example.addmul_parser "1 2 3")
  /\ captures (Example.match_of Example.addmul_parser "1 2 3") "values"
     = ["1"; "2"; "3"]
  /\ RegexCommandParser.is_list_annotation (t_typing_alias o_list t_int)
     = true
  /\ RegexCommandParser.type_is_list (t_typing_alias o_list t_int) = false
  /\ Forall2
       (RegexCommandParser.described_field (core := decimal_core)
          (Example.match_of Example.addmul_parser "1 2 3"))
       (model_fields Example.TypingListCommand_schema)
       [("values", VList [VInt 1; VInt 2; VInt 3])]
  /\ RegexCommandParser.params_of Example.TypingListCommand_schema
       (Example.match_of Example.addmul_parser "1 2 3")
     = [("values", VStr "3")]
  /\ RegexCommandParser.parse (core := decimal_core) Example.addmul_parser
       Example.TypingListCommand_schema "1 2 3"
     = Raise (CommandParseError "Parameters failed to validate."
                (Some [("values", list_type)])).
Proof.
  repeat split; try reflexivity.
  constructor; [|constructor]. split; [reflexivity|]. simpl.
  exists [VInt 1; VInt 2; VInt 3]. split; [reflexivity|].
  repeat constructor.
Qed.

Lemma C7_witness :
  dict.lookup "value"
    (RegexCommandParser.params_of Example.OptionalCommand_schema
       (Example.match_of Example.optional_parser ""))
  = Some VNone.
Proof.
  refine (proj1 (proj1
    (@C7_unmatched_group_is_None decimal_core Example.OptionalCommand_schema
       (Example.match_of Example.optional_parser "") "value"
       {| annotation := t_optional t_int; description := None;
          default := Some (VInt 7) |} _ _) _ _));
    reflexivity.
Defined.

(** C7 as it is worded fails: the optional group of the pattern takes no
    part in the match of the empty line, and yet the field is in the
    dictionary handed to validation, with the value [None], and the record
    has [None] for it, not the default 7. *)
Lemma C7_counterexample :
  fullmatch (RegexLibrary := mini_regex)
    (RegexCommandParser.cpattern Example.optional_parser) ""
  = Some (Example.match_of Example.optional_parser "")
  /\ group (Example.match_of Example.optional_parser "") "value" = None
  /\ dict.lookup "value"
       (RegexCommandParser.params_of Example.OptionalCommand_schema
          (Example.match_of Example.optional_parser ""))
     = Some VNone
  /\ RegexCommandParser.parse (core := decimal_core) Example.optional_parser
       Example.OptionalCommand_schema ""
     = Return [("value", VNone)].
Proof.
  repeat split; reflexivity.
Qed.

(** ** command.py: the help text *)

Section HelpMessage.
Context {D : Type}.
Implicit Types (command : Command.t D).

(** Whatever the first line is, the text has the described layout. *)
Lemma help_message_layout command :
  Command.help_message command
  = command_help_text
      match Command.action command with
      | Some a => format_optional_str (action_doc a)
      | None => no_description
      end
      (parser_help_message (Command.parser command))
      (Command.param_docs command).
Proof. reflexivity. Qed.

(** With no action bound, or an action with a docstring, the first line
    is the placeholder, or the docstring. *)
Lemma help_message_described command :
  (Command.action command = None ->
   Command.help_message command
   = command_help_text no_description
       (parser_help_message (Command.parser command))
       (Command.param_docs command))
  /\ (forall a doc,
        Command.action command = Some a -> action_doc a = Some doc ->
        Command.help_message command
        = command_help_text doc
            (parser_help_message (Command.parser command))
            (Command.param_docs command)).
Proof.
  split.
  - intros H. now rewrite help_message_layout, H.
  - intros a doc H Hdoc. now rewrite help_message_layout, H, Hdoc.
Qed.
End HelpMessage.

(** C8.  The help text of a command whose action has no docstring starts
    with the word None, where the described text has the placeholder: the
    code tests whether an action is bound, not whether it has a
    description. *)
Theorem C8_help_message_undocumented_action :
  Command.action Example.GoCommand = Some Example.go_action
  /\ action_doc Example.go_action = None
  /\ Command.help_message Example.GoCommand
     = command_help_text "None" "Pattern: " []
  /\ Command.help_message Example.GoCommand
     <> command_help_text no_description "Pattern: " [].
Proof.
  repeat split; try reflexivity. discriminate.
Qed.

(** ** The runs of the example game *)

(** [add 5] on a counter at 0 leaves it at 5, after the before-command
    hook counted the command. *)
Example run_add :
  Game.user_loop_body Example.game "add 5" Example.new_world
  = (Return tt,
     {| data := {| Example.timer := 0; Example.n_actions := 1;
                   Example.counter := 5 |};
        stdout := [] |}).
Proof. reflexivity. Qed.

(** [add-multiple 1 2 3] captures ["1"; "2"; "3"] and adds their sum. *)
Example run_add_multiple :
  captures (Example.match_of Example.addmul_parser "1 2 3") "values"
  = ["1"; "2"; "3"]
  /\ Game.user_loop_body Example.game "add-multiple 1 2 3" Example.new_world
     = (Return tt,
        {| data := {| Example.timer := 0; Example.n_actions := 1;
                      Example.counter := 6 |};
           stdout := [] |}).
Proof. split; reflexivity. Qed.

(** An unregistered token is reported and nothing else changes. *)
Example run_bogus :
  Game.user_loop_body Example.game "bogus" Example.new_world
  = (Return tt,
     {| data := Example.new_data; stdout := [not_found "bogus"] |}).
Proof. reflexivity. Qed.

(** The input goes on after a line that does not parse; the loop ends
    when the console has no more lines. *)
Example run_lines :
  Game.user_loop Example.game ["add 1"; "add x"; "add 3"] Example.new_world
  = (Raise EOFError,
     {| data := {| Example.timer := 0; Example.n_actions := 2;
                   Example.counter := 4 |};
        stdout := ["Command does not match pattern: (?P<value>[\d-]+)"] |}).
Proof. reflexivity. Qed.

(** * Further properties of the code *)

(** ** [str.split(maxsplit=1)] as the loop uses it *)

Lemma append_assoc (a b c : string) : (a ++ b) ++ c = a ++ b ++ c.
Proof. induction a as [|x a IH]; simpl; congruence. Qed.

Lemma append_empty_r (a : string) : a ++ "" = a.
Proof. induction a as [|x a IH]; simpl; congruence. Qed.

Lemma lstrip_app_space ws s :
  all_space ws = true -> lstrip (ws ++ s) = lstrip s.
Proof.
  induction ws as [|c ws IH]; simpl; intros H; [reflexivity|].
  apply andb_prop in H as [Hc Hws]. rewrite Hc. now apply IH.
Qed.

Lemma lstrip_text s : starts_with_text s = true -> lstrip s = s.
Proof.
  destruct s as [|c s]; simpl; [discriminate|].
  now destruct (isspace c).
Qed.

Lemma lstrip_decompose s :
  exists ws, all_space ws = true /\ s = ws ++ lstrip s
             /\ (lstrip s = "" \/ starts_with_text (lstrip s) = true).
Proof.
  induction s as [|c s (ws & Hws & Hs & Hl)]; simpl.
  - exists "". auto.
  - destruct (isspace c) eqn:Hc.
    + exists (String c ws). simpl. rewrite Hc, Hws. repeat split; auto.
      congruence.
    + exists "". simpl. rewrite Hc. auto.
Qed.

Lemma take_token_app tok rest :
  no_space tok = true ->
  starts_with_text rest = false ->
  take_token (tok ++ rest) = (tok, rest).
Proof.
  intros Htok Hrest. induction tok as [|c tok IH]; simpl in *.
  - destruct rest as [|c rest]; [reflexivity|]. simpl in *.
    now destruct (isspace c).
  - apply andb_prop in Htok as [Hc Htok].
    destruct (isspace c); [discriminate|]. now rewrite IH.
Qed.

Lemma take_token_decompose s :
  s = fst (take_token s) ++ snd (take_token s)
  /\ no_space (fst (take_token s)) = true
  /\ starts_with_text (snd (take_token s)) = false
  /\ (starts_with_text s = true -> fst (take_token s) <> "").
Proof.
  induction s as [|c s (Hs & Hn & Hr & _)]; simpl.
  - repeat split; auto. discriminate.
  - destruct (isspace c) eqn:Hc; simpl.
    + rewrite Hc. repeat split; auto. discriminate.
    + destruct (take_token s) as [tok rest]; simpl in *.
      rewrite Hc, Hn. repeat split; auto; congruence.
Qed.

Lemma all_space_starts ws :
  all_space ws = true -> starts_with_text ws = false.
Proof.
  destruct ws as [|c ws]; simpl; [reflexivity|].
  intros H. apply andb_prop in H as [-> _]. reflexivity.
Qed.

Lemma split_maxsplit1_token ws tok sep rest :
  all_space ws = true -> no_space tok = true -> tok <> "" ->
  all_space sep = true ->
  rest = "" \/ (sep <> "" /\ starts_with_text rest = true) ->
  split_maxsplit1 (ws ++ tok ++ sep ++ rest)
  = tok :: match rest with EmptyString => [] | _ => [rest] end.
Proof.
  intros Hws Htok Hne Hsep Hrest. unfold split_maxsplit1.
  rewrite lstrip_app_space by exact Hws.
  assert (Htext : starts_with_text (tok ++ sep ++ rest) = true).
  { destruct tok as [|c tok]; [congruence|]. simpl in *.
    now apply andb_prop in Htok as [-> _]. }
  rewrite lstrip_text by exact Htext.
  assert (Hstop : starts_with_text (sep ++ rest) = false).
  { destruct Hrest as [->|[Hs _]].
    - rewrite append_empty_r. now apply all_space_starts.
    - destruct sep as [|c sep]; [congruence|]. simpl in *.
      now apply andb_prop in Hsep as [-> _]. }
  destruct (tok ++ sep ++ rest) as [|a s0] eqn:E.
  { destruct tok; [congruence|discriminate]. }
  rewrite <- E, take_token_app by assumption.
  rewrite lstrip_app_space by exact Hsep.
  destruct Hrest as [->|[_ Hr]]; [reflexivity|].
  rewrite lstrip_text by exact Hr. now destruct rest.
Qed.

(** X1.  What [split(maxsplit=1)] returns on a line made of white space
    [ws], a word [tok], white space [sep] and a rest: the word alone when
    there is no rest, the word and the rest otherwise.  White space before
    the word and between the word and the rest is dropped, the rest is
    kept as it is, trailing white space included. *)
Theorem split_maxsplit1_spec ws tok sep rest :
  all_space ws = true -> no_space tok = true -> tok <> "" ->
  all_space sep = true ->
  split_maxsplit1 (ws ++ tok ++ sep) = [tok]
  /\ (sep <> "" -> starts_with_text rest = true ->
      split_maxsplit1 (ws ++ tok ++ sep ++ rest) = [tok; rest]).
Proof.
  intros Hws Htok Hne Hsep. split.
  - rewrite <- (append_empty_r sep) at 1.
    now rewrite split_maxsplit1_token by auto.
  - intros Hs Hr.
    rewrite split_maxsplit1_token by auto.
    destruct rest; [discriminate|reflexivity].
Qed.

Lemma split_maxsplit1_spec_witness :
  split_maxsplit1 ("  " ++ "add" ++ "   ") = ["add"]
  /\ split_maxsplit1 ("  " ++ "add" ++ "   " ++ "1 2 3  ") = ["add"; "1 2 3  "].
Proof.
  destruct (@split_maxsplit1_spec "  " "add" "   " "1 2 3  ")
    as [H1 H2]; try reflexivity; try discriminate.
  split; [exact H1|]. apply H2; [discriminate|reflexivity].
Defined.

(** X2.  Conversely, every line decomposes along what the split returns:
    an empty result means the line is white space only; otherwise the
    line is white space, the first element (a non-empty word without white
    space), white space again and, if there is a second element, that
    element, which starts with a character that is not white space.  There
    are never more than two elements. *)
Theorem split_maxsplit1_decompose line :
  match split_maxsplit1 line with
  | [] => all_space line = true
  | [tok] =>
      tok <> "" /\ no_space tok = true
      /\ exists ws sep, all_space ws = true /\ all_space sep = true
           /\ line = ws ++ tok ++ sep
  | [tok; rest] =>
      tok <> "" /\ no_space tok = true /\ starts_with_text rest = true
      /\ exists ws sep, all_space ws = true /\ all_space sep = true
           /\ sep <> "" /\ line = ws ++ tok ++ sep ++ rest
  | _ => False
  end.
Proof.
  unfold split_maxsplit1.
  destruct (lstrip_decompose line) as (ws & Hws & Hline & Hl).
  destruct (lstrip line) as [|c s1] eqn:E1.
  - rewrite append_empty_r in Hline. now subst ws.
  - destruct Hl as [Hl|Hl]; [discriminate|].
    destruct (take_token_decompose (String c s1)) as (Hs & Hn & Hr & Hne).
    specialize (Hne Hl).
    destruct (take_token (String c s1)) as [tok rest]. simpl in Hs, Hn, Hr, Hne.
    destruct (lstrip_decompose rest) as (sep & Hsep & Hrest & Hl2).
    destruct (lstrip rest) as [|c2 s2] eqn:E2.
    + rewrite append_empty_r in Hrest. subst sep.
      repeat split; auto. exists ws, rest. repeat split; auto. congruence.
    + destruct Hl2 as [Hl2|Hl2]; [discriminate|].
      repeat split; auto. exists ws, sep. repeat split; auto.
      * intros ->. simpl in Hrest. subst rest. congruence.
      * congruence.
Qed.

(** ** game.py: the registry during setup *)

Lemma In_keys_set {V} (k k' : string) (v : V) (d : dict.t V) :
  In k' (dict.keys (dict.set k v d)) <-> k' = k \/ In k' (dict.keys d).
Proof.
  induction d as [|[k0 v0] d IH]; simpl.
  - intuition.
  - destruct (String.eqb_spec k k0) as [->|Hne]; simpl; [intuition|].
    rewrite IH. intuition.
Qed.

Lemma NoDup_keys_set {V} (k : string) (v : V) (d : dict.t V) :
  NoDup (dict.keys d) -> NoDup (dict.keys (dict.set k v d)).
Proof.
  induction d as [|[k0 v0] d IH]; simpl; intros Hnd.
  - repeat constructor. simpl. tauto.
  - inversion Hnd as [|? ? Hk0 Hnd']; subst.
    destruct (String.eqb_spec k k0) as [->|Hne]; simpl.
    + now constructor.
    + constructor; [|now apply IH].
      rewrite In_keys_set. intros [->|Hin]; tauto.
Qed.

Lemma keys_set_present {V} (k : string) (v : V) (d : dict.t V) :
  dict.mem k d = true -> dict.keys (dict.set k v d) = dict.keys d.
Proof.
  unfold dict.mem. induction d as [|[k0 v0] d IH]; simpl; [discriminate|].
  destruct (String.eqb_spec k k0) as [->|Hne]; simpl; [reflexivity|].
  intros H. now rewrite IH.
Qed.

Lemma lookup_set_same {V} (k : string) (v : V) (d : dict.t V) :
  dict.lookup k (dict.set k v d) = Some v.
Proof.
  induction d as [|[k0 v0] d IH]; simpl.
  - now rewrite String.eqb_refl.
  - destruct (String.eqb k k0) eqn:E; simpl.
    + now rewrite String.eqb_refl.
    + now rewrite E.
Qed.

Lemma lookup_In {V} (k : string) (v : V) (d : dict.t V) :
  dict.lookup k d = Some v -> In (k, v) d.
Proof.
  induction d as [|[k0 v0] d IH]; simpl; [discriminate|].
  destruct (String.eqb_spec k k0) as [->|Hne].
  - intros H. injection H as ->. now left.
  - intros H. right. now apply IH.
Qed.

Lemma concat_empty_cons (x : string) (l : list string) :
  String.concat "" (x :: l) = x ++ String.concat "" l.
Proof.
  destruct l as [|y l]; simpl; [now rewrite append_empty_r|reflexivity].
Qed.

Lemma concat_empty_app (l : list string) (x : string) :
  String.concat "" (l ++ [x])%list = String.concat "" l ++ x.
Proof.
  induction l as [|y l IH].
  - reflexivity.
  - change ((y :: l) ++ [x])%list with (y :: (l ++ [x]))%list.
    now rewrite !concat_empty_cons, IH, append_assoc.
Qed.

(** What a successful decorated registration does to the game. *)
Lemma register_command_success {D} (g g' : Game.t D) name command r :
  decorate (Game.register_command name) command g = (Return r, g') ->
  r = command
  /\ dict.mem name (Game.commands g) = false
  /\ g' = {| Game.config := Game.config g;
             Game.commands := (Game.commands g ++ [(name, command)])%list;
             Game.tasks := Game.tasks g |}.
Proof.
  unfold decorate, bind, Game.register_command.
  destruct (show_help (Game.config g) && (name =? "help"))%bool;
    [unfold raise; discriminate|].
  destruct (dict.mem name (Game.commands g)) eqn:Hmem;
    [unfold raise; discriminate|].
  unfold ret, Game.register_command_decorator.
  rewrite dict_facts.set_fresh by exact Hmem.
  intros H. injection H as <- <-. auto.
Qed.

Section Setup.
Context {D : Type}.
Implicit Types (g : Game.t D) (cfg : GameConfig) (command : Command.t D).

(** X3.  Whatever the setup does with the methods of [Game], decorators
    applied late included, the configuration stays the one the game was
    made with and no name occurs twice in the registry. *)
Theorem setup_keeps_registry_keys_distinct cfg g :
  reachable cfg g ->
  Game.config g = cfg /\ NoDup (dict.keys (Game.commands g)).
Proof.
  induction 1 as [|g0 g name dec command H0 IH0 Hdec Hg IHg
                  |g task_type task Hg IHg].
  - split; [reflexivity|constructor].
  - apply register_command_returns in Hdec as (-> & _ & _).
    destruct IHg as [Hc Hnd]. split; [exact Hc|].
    simpl. now apply NoDup_keys_set.
  - exact IHg.
Qed.

(** X4.  After a registration that succeeded, looking the name up gives
    the command that was registered, every other name is found or missing
    as before, and the configuration and the hooks are untouched. *)
Theorem register_command_then_lookup g g' name command r :
  decorate (Game.register_command name) command g = (Return r, g') ->
  r = command
  /\ dict.lookup name (Game.commands g') = Some command
  /\ (forall other, other <> name ->
        dict.lookup other (Game.commands g')
        = dict.lookup other (Game.commands g))
  /\ Game.config g' = Game.config g
  /\ Game.tasks g' = Game.tasks g.
Proof.
  intros H. apply register_command_success in H as (-> & Hmem & ->).
  simpl. rewrite <- dict_facts.set_fresh by exact Hmem.
  repeat split.
  - apply lookup_set_same.
  - intros other Hne. now apply dict_facts.lookup_set_other.
Qed.

(** X5.  A registration that succeeded adds one line to the help of the
    game, after the lines of the commands registered before: the name and
    the docstring of the schema, or the placeholder when it has none. *)
Theorem register_command_extends_help g g' name command r :
  decorate (Game.register_command name) command g = (Return r, g') ->
  Game.help_message g'
  = Game.help_message g ++ nl ++ indent ++ name ++ ": "
      ++ match schema_doc (Command.schema command) with
         | Some doc => doc
         | None => no_description
         end.
Proof.
  intros H. apply register_command_success in H as (_ & _ & ->).
  unfold Game.help_message. cbn [Game.commands].
  rewrite !map_app. cbn [map].
  rewrite concat_empty_app, append_assoc. reflexivity.
Qed.

(** X6.  [register_task] never fails; the task it is given becomes the
    hook of its kind, replacing the one registered before if any, and the
    hooks of the other kinds, the registry and the configuration are left
    alone. *)
Theorem register_task_last_wins g task_type (task : Task D) :
  fst (decorate (Game.register_task task_type) task g) = Return task
  /\ Game.tasks (snd (decorate (Game.register_task task_type) task g))
       task_type = Some task
  /\ (forall k, k <> task_type ->
        Game.tasks (snd (decorate (Game.register_task task_type) task g)) k
        = Game.tasks g k)
  /\ Game.commands (snd (decorate (Game.register_task task_type) task g))
     = Game.commands g
  /\ Game.config (snd (decorate (Game.register_task task_type) task g))
     = Game.config g.
Proof.
  simpl. repeat split.
  - now destruct task_type.
  - intros k Hne. destruct k, task_type; simpl; congruence.
Qed.

(** X7.  The duplicate check is made when [register_command(name)] is
    called, not when the decorator it returns is applied.  Two decorators
    obtained for the same free name both apply without error: the second
    replaces the command of the first, in the same place of the registry,
    although a call of [register_command(name)] in between would have
    been refused. *)
Theorem late_decorator_replaces g name dec1 dec2 (c1 c2 : Command.t D) :
  fst (Game.register_command name g) = Return dec1 ->
  fst (Game.register_command name g) = Return dec2 ->
  fst (dec2 c2 (snd (dec1 c1 g))) = Return c2
  /\ dict.lookup name (Game.commands (snd (dec2 c2 (snd (dec1 c1 g)))))
     = Some c2
  /\ dict.keys (Game.commands (snd (dec2 c2 (snd (dec1 c1 g)))))
     = (dict.keys (Game.commands g) ++ [name])%list
  /\ fst (Game.register_command name (snd (dec1 c1 g)))
     = Raise (ValueError (Game.duplicate_message name)).
Proof.
  intros H1 H2.
  apply register_command_returns in H1 as (-> & Hhelp & Hmem).
  apply register_command_returns in H2 as (-> & _ & _).
  simpl. rewrite dict_facts.set_fresh with (d := Game.commands g)
    by exact Hmem.
  assert (Hin : dict.mem name (Game.commands g ++ [(name, c1)])%list = true).
  { rewrite <- dict_facts.set_fresh with (v := c1) by exact Hmem.
    unfold dict.mem. now rewrite lookup_set_same. }
  repeat split.
  - apply lookup_set_same.
  - rewrite keys_set_present by exact Hin.
    unfold dict.keys. now rewrite map_app.
  - unfold Game.register_command. simpl. now rewrite Hhelp, Hin.
Qed.
End Setup.

Lemma register_command_then_lookup_witness :
  dict.lookup "go"
    (Game.commands
       (snd (decorate (Game.register_command "go") Example.GoCommand
               Example.game)))
  = Some Example.GoCommand.
Proof.
  refine (proj1 (proj2
    (@register_command_then_lookup _ Example.game _ "go" Example.GoCommand
       Example.GoCommand _))).
  reflexivity.
Defined.

Lemma setup_keeps_registry_keys_distinct_witness :
  NoDup (dict.keys (Game.commands Example.game)).
Proof.
  exact (proj2 (setup_keeps_registry_keys_distinct example_game_reachable)).
Defined.

Lemma register_command_extends_help_witness :
  Game.help_message
    (snd (decorate (Game.register_command "go") Example.GoCommand
            Example.game))
  = Game.help_message Example.game ++ nl ++ indent ++ "go" ++ ": "
      ++ no_description.
Proof.
  refine (@register_command_extends_help _ Example.game _ "go"
            Example.GoCommand Example.GoCommand _).
  reflexivity.
Defined.

Lemma late_decorator_replaces_witness :
  dict.lookup "go"
    (Game.commands
       (snd (Game.register_command_decorator "go" Example.IdleCommand
               (snd (Game.register_command_decorator "go" Example.GoCommand
                       Example.game)))))
  = Some Example.IdleCommand.
Proof.
  refine (proj1 (proj2
    (@late_decorator_replaces _ Example.game "go"
       (Game.register_command_decorator "go")
       (Game.register_command_decorator "go")
       Example.GoCommand Example.IdleCommand _ _)));
    reflexivity.
Defined.

(** ** game.py: more on the input loop *)

Lemma all_space_split line :
  all_space line = true -> split_maxsplit1 line = [].
Proof.
  intros H. unfold split_maxsplit1.
  replace (lstrip line) with ""; [reflexivity|].
  induction line as [|c line IH]; simpl in *; [reflexivity|].
  apply andb_prop in H as [-> H]. now apply IH.
Qed.

Lemma world_eta {D} (w : World D) :
  {| data := data w; stdout := stdout w ++ [] |} = w.
Proof. destruct w. simpl. now rewrite app_nil_r. Qed.

Section UserLoopMore.
Context {D : Type}.
Implicit Types (g : Game.t D) (cfg : GameConfig) (command : Command.t D)
  (w : World D).

(** X8.  With help switched off, "help" is a name like any other: it can
    be registered, and a line that starts with it goes to the command
    registered under it, not to the help of the game. *)
Theorem help_is_a_plain_name_when_disabled g command line rest w :
  show_help (Game.config g) = false ->
  dict.mem "help" (Game.commands g) = false ->
  split_maxsplit1 line = "help" :: rest ->
  fst (decorate (Game.register_command "help") command g) = Return command
  /\ Game.user_loop_body
       (snd (decorate (Game.register_command "help") command g)) line w
     = match Command.parse command (hd "" rest) with
       | Raise (CommandParseError msg _) => print msg w
       | Raise e => (Raise e, w)
       | Return params =>
           (Game.run_task g pre_command ;;
            Command.execute command params ;;
            Game.run_task g post_command) w
       end.
Proof.
  intros Hhelp Hmem Hsplit.
  unfold decorate, bind, Game.register_command. rewrite Hhelp, Hmem. simpl.
  split; [reflexivity|].
  unfold Game.user_loop_body. rewrite Hsplit. simpl. rewrite Hhelp. simpl.
  rewrite lookup_set_same.
  destruct (Command.parse command (hd "" rest)) as [params|[]]; reflexivity.
Qed.

(** X9.  A line of white space only, the empty line included, is a turn
    in which nothing happens: nothing is printed, no hook runs, the world
    is the same. *)
Theorem blank_line_does_nothing g line w :
  all_space line = true ->
  Game.user_loop_body g line w = (Return tt, w).
Proof.
  intros H. unfold Game.user_loop_body. now rewrite all_space_split.
Qed.

(** X10.  A turn whose first word is not the name of a registered command
    (a help request, an unknown word, a blank line) returns normally,
    prints at most one message and leaves the data object as it was: no
    hook and no action runs. *)
Theorem turn_without_command_keeps_data g line w :
  (forall tok rest,
     split_maxsplit1 line = tok :: rest ->
     dict.lookup tok (Game.commands g) = None
     \/ ((tok =? "help") && show_help (Game.config g))%bool = true) ->
  exists out,
    Game.user_loop_body g line w
    = (Return tt, {| data := data w; stdout := (stdout w ++ out)%list |})
    /\ (length out <= 1)%nat.
Proof.
  intros H. unfold Game.user_loop_body.
  destruct (split_maxsplit1 line) as [|tok rest].
  - exists []. rewrite world_eta. auto.
  - destruct ((tok =? "help") && show_help (Game.config g))%bool eqn:Hh.
    + destruct rest as [|topic rest].
      * eexists [_]. split; [reflexivity|auto].
      * destruct (dict.lookup topic (Game.commands g));
          eexists [_]; (split; [reflexivity|auto]).
    + destruct (H tok rest eq_refl) as [Hnone|Habs]; [|congruence].
      rewrite Hnone. eexists [_]. split; [reflexivity|auto].
Qed.

(** X11.  An exception of the before-command hook, or of the action after
    the hook returned, is not caught: the turn stops where it was raised,
    what follows in the turn does not run, the lines that remain are not
    read, and the loop ends with that exception. *)
Theorem hook_exception_ends_the_loop cfg g line uinput0 rest command params
    lines e w w1 w2 :
  reachable cfg g ->
  split_maxsplit1 line = uinput0 :: rest ->
  dict.lookup uinput0 (Game.commands g) = Some command ->
  Command.parse command (hd "" rest) = Return params ->
  (Game.run_task g pre_command w = (Raise e, w1) ->
   Game.user_loop g (line :: lines) w = (Raise e, w1))
  /\ (Game.run_task g pre_command w = (Return tt, w1) ->
      Command.execute command params w1 = (Raise e, w2) ->
      Game.user_loop g (line :: lines) w = (Raise e, w2)).
Proof.
  intros Hr Hsplit Hc Hparse. simpl. unfold bind at 1.
  rewrite (user_loop_body_command _ Hr Hsplit Hc), Hparse.
  split.
  - intros Hpre. unfold bind. now rewrite Hpre.
  - intros Hpre Hact. unfold bind. now rewrite Hpre, Hact.
Qed.

(** X12.  The input loop never returns normally: whatever the game, the
    lines and the world, it ends by an exception (at the latest the
    [EOFError] at the end of the input). *)
Theorem user_loop_ends_by_exception g lines w :
  exists e w', Game.user_loop g lines w = (Raise e, w').
Proof.
  revert w. induction lines as [|line lines IH]; intros w; simpl.
  - now exists EOFError, w.
  - unfold bind.
    destruct (Game.user_loop_body g line w) as [[[]|e] w1].
    + apply IH.
    + now exists e, w1.
Qed.

(** X13.  A command built on the base [CommandParser] cannot be used: the
    first line that names it raises [NotImplementedError], which the loop
    does not catch, so the loop ends there, the world untouched. *)
Theorem base_parser_ends_the_loop cfg g line uinput0 rest command lines w :
  reachable cfg g ->
  split_maxsplit1 line = uinput0 :: rest ->
  dict.lookup uinput0 (Game.commands g) = Some command ->
  Command.parser command = base_CommandParser ->
  Game.user_loop g (line :: lines) w = (Raise NotImplementedError, w).
Proof.
  intros Hr Hsplit Hc Hbase. simpl. unfold bind.
  rewrite (user_loop_body_command _ Hr Hsplit Hc).
  unfold Command.parse. now rewrite Hbase.
Qed.
End UserLoopMore.

Lemma help_is_a_plain_name_when_disabled_witness :
  Game.user_loop_body
    (snd (decorate (Game.register_command "help") Example.GoCommand
            (create_game Example.ExampleGame
               {| background_delay := 1; show_help := false |})))
    "help" Example.new_world
  = (Return tt, {| data := Example.new_data; stdout := ["action"] |}).
Proof.
  rewrite (proj2 (@help_is_a_plain_name_when_disabled _
             (create_game Example.ExampleGame
                {| background_delay := 1; show_help := false |})
             Example.GoCommand "help" [] Example.new_world
             eq_refl eq_refl eq_refl)).
  reflexivity.
Defined.

Lemma blank_line_does_nothing_witness :
  Game.user_loop_body Example.game "   " Example.new_world
  = (Return tt, Example.new_world).
Proof.
  apply blank_line_does_nothing. reflexivity.
Defined.

Lemma turn_without_command_keeps_data_witness :
  exists out,
    Game.user_loop_body Example.game "look around" Example.new_world
    = (Return tt,
       {| data := data Example.new_world;
          stdout := (stdout Example.new_world ++ out)%list |})
    /\ (length out <= 1)%nat.
Proof.
  apply turn_without_command_keeps_data.
  intros tok rest H. injection H as <- <-. now left.
Defined.

(** A game whose before-command hook fails. *)
Lemma hook_exception_ends_the_loop_witness :
  Game.user_loop
    (snd (decorate (Game.register_task pre_command)
            (raise (RuntimeError "before")) Example.game))
    ["add 5"; "add 6"] Example.new_world
  = (Raise (RuntimeError "before"), Example.new_world).
Proof.
  refine (proj1
    (@hook_exception_ends_the_loop _ default_GameConfig _ "add 5" "add"
       ["5"] Example.AddCommand [("value", VInt 5)] ["add 6"]
       (RuntimeError "before") Example.new_world Example.new_world
       Example.new_world _ _ _ _) _); try reflexivity.
  apply reachable_task. exact example_game_reachable.
Defined.

Lemma base_parser_ends_the_loop_witness :
  Game.user_loop
    (snd (decorate (Game.register_command "noop")
            (Command.init Example.GoCommand_schema base_CommandParser)
            Example.game))
    ["noop"; "add 5"] Example.new_world
  = (Raise NotImplementedError, Example.new_world).
Proof.
  refine (@base_parser_ends_the_loop _ default_GameConfig _ "noop" "noop" []
            (Command.init Example.GoCommand_schema base_CommandParser)
            ["add 5"] Example.new_world _ _ _ _); try reflexivity.
  apply (@reachable_command _ _ Example.game Example.game "noop"
           (Game.register_command_decorator "noop")
           (Command.init Example.GoCommand_schema base_CommandParser));
    try reflexivity; exact example_game_reachable.
Defined.

(** ** parser.py: more on the regular-expression parser *)

Section ValidationErrors.
Context {core : PydanticCore}.

Lemma validate_fields_error params fields name field e :
  In (name, field) fields ->
  validate_field params name field = inl e ->
  In (name, e) (fst (validate_fields params fields)).
Proof.
  induction fields as [|[n f] fields IH]; simpl; [tauto|].
  intros [Heq|Hin] He.
  - injection Heq as -> ->.
    destruct (validate_fields params fields) as [errs inst].
    rewrite He. simpl. now left.
  - specialize (IH Hin He).
    destruct (validate_fields params fields) as [errs inst].
    destruct (validate_field params n f); simpl in *; auto.
Qed.

Lemma model_validate_error schema params name field e :
  In (name, field) (model_fields schema) ->
  validate_field params name field = inl e ->
  exists errs, model_validate schema params = inl errs /\ In (name, e) errs.
Proof.
  intros Hin He. unfold model_validate.
  pose proof (@validate_fields_error params _ _ _ _ Hin He) as H.
  destruct (validate_fields params (model_fields schema)) as [[|x errs] inst];
    simpl in H; [tauto|].
  eexists. split; [reflexivity|exact H].
Qed.
End ValidationErrors.

Section RegexParserMore.
Context {re : RegexLibrary} {core : PydanticCore}.
Import RegexCommandParser.
Implicit Types (self : RegexCommandParser.t) (schema : Schema) (m : Match).

Lemma parse_validation_error self schema line m name field e :
  fullmatch (cpattern self) line = Some m ->
  In (name, field) (model_fields schema) ->
  validate_field (params_of schema m) name field = inl e ->
  exists errs,
    parse self schema line
    = Raise (CommandParseError "Parameters failed to validate." (Some errs))
    /\ In (name, e) errs.
Proof.
  intros Hm Hin He. unfold parse. rewrite Hm.
  destruct (@model_validate_error _ schema _ _ _ _ Hin He)
    as (errs & -> & Herr).
  eauto.
Qed.

(** X16.  A field annotated [typing.List[T]] or [typing.Tuple[T, ...]] is
    not a list field for [type_is_list].  When the pattern has a group of
    its name, the field is given what [group] returns, which is no
    sequence, and [parse] fails on every line that matches: such a schema
    cannot be parsed by this parser. *)
Theorem typing_alias_field_always_fails self schema line m name field o elt :
  dict.lookup name (model_fields schema) = Some field ->
  annotation field = t_typing_alias o elt ->
  fullmatch (cpattern self) line = Some m ->
  dict.mem name (groupdict m) = true ->
  exists errs,
    parse self schema line
    = Raise (CommandParseError "Parameters failed to validate." (Some errs))
    /\ In (name, origin_error o) errs.
Proof.
  intros Hfield Hann Hm Hmem.
  eapply parse_validation_error.
  - exact Hm.
  - apply lookup_In. exact Hfield.
  - unfold validate_field.
    rewrite lookup_params_of, Hmem, Hfield. simpl. rewrite Hann. simpl.
    now destruct (group m name).
Qed.

(** X17.  A required field (one without default) for which the pattern
    has no group makes [parse] fail on every line that matches, with the
    field reported as missing. *)
Theorem required_field_without_group_fails self schema line m name field :
  dict.lookup name (model_fields schema) = Some field ->
  default field = None ->
  fullmatch (cpattern self) line = Some m ->
  dict.mem name (groupdict m) = false ->
  exists errs,
    parse self schema line
    = Raise (CommandParseError "Parameters failed to validate." (Some errs))
    /\ In (name, missing) errs.
Proof.
  intros Hfield Hdef Hm Hmem.
  eapply parse_validation_error.
  - exact Hm.
  - apply lookup_In. exact Hfield.
  - unfold validate_field. now rewrite lookup_params_of, Hmem, Hdef.
Qed.

(** X18.  A list field whose group is in the pattern but captured nothing
    gets the empty list: the dictionary handed to validation has an empty
    list for it, which validates to the empty list, and the default of the
    schema, if there is one, is not used. *)
Theorem list_field_without_captures_is_empty schema m name field :
  dict.lookup name (model_fields schema) = Some field ->
  type_is_list (annotation field) = true ->
  dict.mem name (groupdict m) = true ->
  captures m name = [] ->
  dict.lookup name (params_of schema m) = Some (VList [])
  /\ validate_field (params_of schema m) name field = inr (VList []).
Proof.
  intros Hfield Hlist Hmem Hcaps. unfold validate_field.
  rewrite lookup_params_of, Hmem, Hfield. simpl. rewrite Hlist, Hcaps.
  simpl. split; [reflexivity|].
  destruct (annotation field) as [| | |[|] elt|o elt|elt];
    try discriminate; reflexivity.
Qed.
End RegexParserMore.

Lemma typing_alias_field_always_fails_witness :
  exists errs,
    RegexCommandParser.parse (core := decimal_core) Example.addmul_parser
      {| schema_doc := None;
         model_fields :=
           [("values", {| annotation := t_typing_alias o_list t_int;
                          description := None; default := None |})] |}
      "1 2 3"
    = Raise (CommandParseError "Parameters failed to validate." (Some errs))
    /\ In ("values", list_type) errs.
Proof.
  apply (@typing_alias_field_always_fails mini_regex decimal_core
           Example.addmul_parser _ "1 2 3"
           (Example.match_of Example.addmul_parser "1 2 3") "values"
           {| annotation := t_typing_alias o_list t_int;
              description := None; default := None |} o_list t_int);
    reflexivity.
Defined.

Lemma required_field_without_group_fails_witness :
  exists errs,
    RegexCommandParser.parse (core := decimal_core)
      (Example.regex_parser "\d+") Example.AddCommand_schema "5"
    = Raise (CommandParseError "Parameters failed to validate." (Some errs))
    /\ In ("value", missing) errs.
Proof.
  apply (@required_field_without_group_fails mini_regex decimal_core
           (Example.regex_parser "\d+") Example.AddCommand_schema "5"
           (Example.match_of (Example.regex_parser "\d+") "5") "value"
           {| annotation := t_int;
              description := Some "The value to add to the counter.";
              default := None |});
    reflexivity.
Defined.

Lemma list_field_without_captures_is_empty_witness :
  dict.lookup "values"
    (RegexCommandParser.params_of Example.AddMultipleCommand_schema
       (Example.match_of (Example.regex_parser "(?:(?P<values>\d+)\s?)*") ""))
  = Some (VList []).
Proof.
  refine (proj1
    (@list_field_without_captures_is_empty decimal_core
       Example.AddMultipleCommand_schema
       (Example.match_of (Example.regex_parser "(?:(?P<values>\d+)\s?)*") "")
       "values"
       {| annotation := t_generic_alias o_list t_int;
          description := Some "The values to add to the counter.";
          default := None |} _ _ _ _));
    reflexivity.
Defined.

(** ** The loop on a game whose hooks and actions do not raise *)

Lemma never_raises_bind {D A B} (c : M (World D) A) (k : A -> M (World D) B) :
  never_raises c -> (forall a, never_raises (k a)) -> never_raises (bind c k).
Proof.
  intros Hc Hk w. unfold bind.
  destruct (Hc w) as (a & w1 & ->). apply Hk.
Qed.

Lemma never_raises_ret {D A} (a : A) : never_raises (D := D) (ret a).
Proof. intros w. now exists a, w. Qed.

Lemma never_raises_print {D} (s : string) : never_raises (D := D) (print s).
Proof. intros w. eexists _, _. reflexivity. Qed.

Section QuietGame.
Context {D : Type}.
Implicit Types (g : Game.t D) (w : World D).

Lemma run_task_never_raises g k : quiet_hooks g -> never_raises (Game.run_task g k).
Proof.
  intros [Htasks _]. unfold Game.run_task.
  destruct (Game.tasks g k) as [task|] eqn:E.
  - exact (Htasks k task E).
  - apply never_raises_ret.
Qed.

Lemma turn_never_raises g line :
  parse_errors_only g -> quiet_hooks g ->
  never_raises (Game.user_loop_body g line).
Proof.
  intros Hparse Hquiet. unfold Game.user_loop_body.
  destruct (split_maxsplit1 line) as [|tok rest]; [apply never_raises_ret|].
  destruct ((tok =? "help") && show_help (Game.config g))%bool.
  - destruct rest as [|topic rest]; [apply never_raises_print|].
    destruct (dict.lookup topic (Game.commands g)); apply never_raises_print.
  - destruct (dict.lookup tok (Game.commands g)) as [command|] eqn:Hc;
      [|apply never_raises_print].
    apply lookup_In in Hc.
    destruct (Command.parse command (hd "" rest)) as [inst|e] eqn:Hp.
    + apply never_raises_bind; [now apply run_task_never_raises|intros _].
      apply never_raises_bind; [|intros _; now apply run_task_never_raises].
      unfold Command.execute.
      destruct (Command.action command) as [a|] eqn:Ha;
        [|apply never_raises_ret].
      destruct Hquiet as [_ Hact]. exact (Hact tok command a inst Hc Ha).
    + destruct (Hparse tok command (hd "" rest) e Hc Hp) as (msg & cause & ->).
      apply never_raises_print.
Qed.

(** X15.  The loop catches the [CommandParseError] of a command and
    nothing else can come out of a turn but what a parser, a hook or an
    action raises: when the [parse] of every command raises nothing but
    [CommandParseError] and no hook or action raises, no input line can
    stop the loop.  It takes every line, whatever the lines are, and ends
    only with the [EOFError] at the end of the input. *)
Theorem quiet_game_reads_every_line g lines w :
  parse_errors_only g -> quiet_hooks g ->
  exists w', Game.user_loop g lines w = (Raise EOFError, w').
Proof.
  intros Hparse Hquiet. revert w.
  induction lines as [|line lines IH]; intros w; simpl.
  - now exists w.
  - unfold bind.
    destruct (turn_never_raises line Hparse Hquiet w) as (a & w1 & ->).
    apply IH.
Qed.
End QuietGame.

(** The command "go" has no parameter to validate: its [parse] returns
    on the empty line and raises [CommandParseError] on every other. *)
Lemma traced_game_parse_errors_only : parse_errors_only Example.traced_game.
Proof.
  intros name command line e [H|[]]. injection H as <- <-.
  unfold Command.parse. simpl. unfold RegexCommandParser.parse.
  destruct (fullmatch _ line); simpl; intros He; [discriminate|].
  injection He as <-. eauto.
Qed.

Lemma traced_game_quiet_hooks : quiet_hooks Example.traced_game.
Proof.
  split.
  - intros [| |] task H; simpl in H; try discriminate;
      injection H as <-; apply never_raises_print.
  - intros name command a params [H|[]] Ha. injection H as <- <-.
    simpl in Ha. injection Ha as <-. apply never_raises_print.
Qed.

Lemma quiet_game_reads_every_line_witness :
  exists w',
    Game.user_loop Example.traced_game ["go"; "go 1"; "stop"; ""]
      Example.new_world
    = (Raise EOFError, w').
Proof.
  exact (quiet_game_reads_every_line ["go"; "go 1"; "stop"; ""]
           Example.new_world traced_game_parse_errors_only
           traced_game_quiet_hooks).
Defined.

(** ** command.py: [create_command] *)

Section CreateCommand.
Context {re : RegexLibrary} {core : PydanticCore} {D : Type}.

Lemma init_pattern r p :
  RegexCommandParser.init r = Some p -> RegexCommandParser.pattern p = r.
Proof.
  unfold RegexCommandParser.init. destruct (compile r); [|discriminate].
  intros H. now injection H as <-.
Qed.

(** X19.  [create_command] fails in two cases only: neither a parser nor a
    pattern is given, or no parser is given and the pattern does not
    compile.  A parser that is given is used as it is and the pattern is
    then not even compiled.  The command made has the schema it was made
    from and no action; made from a pattern, its usage text is
    "Pattern: " followed by the pattern. *)
Theorem create_command_outcome (parser : option CommandParser)
    (regex : option string) :
  ((exists e, create_command (D := D) parser regex = Raise e)
   <-> parser = None
       /\ (regex = None \/ exists r, regex = Some r /\ compile r = None))
  /\ forall dec schema,
       create_command (D := D) parser regex = Return dec ->
       Command.schema (dec schema) = schema
       /\ Command.action (dec schema) = None
       /\ (forall p, parser = Some p -> Command.parser (dec schema) = p)
       /\ (forall r, parser = None -> regex = Some r ->
             parser_help_message (Command.parser (dec schema))
             = "Pattern: " ++ r).
Proof.
  unfold create_command. split.
  - destruct parser as [p|].
    + split; [intros [e H]; discriminate|intros [H _]; discriminate].
    + destruct regex as [r|].
      * unfold RegexCommandParser.init.
        destruct (compile r) as [c|] eqn:Ec.
        -- split; [intros [e H]; discriminate|].
           intros [_ [H|(r' & H & Hc)]]; [discriminate|].
           injection H as <-. congruence.
        -- split; [|eauto]. intros _. split; [reflexivity|].
           right. now exists r.
      * split; [|eauto]. intros _. auto.
  - intros dec schema Hdec. destruct parser as [p|].
    + injection Hdec as <-. simpl. repeat split.
      * intros p' H. now injection H as <-.
      * discriminate.
    + destruct regex as [r|]; [|discriminate].
      destruct (RegexCommandParser.init r) as [p|] eqn:Ep; [|discriminate].
      injection Hdec as <-. simpl. repeat split.
      * discriminate.
      * intros r' _ H. injection H as <-.
        unfold RegexCommandParser.help_message.
        now rewrite (init_pattern _ Ep).
Qed.
End CreateCommand.

(** ** game.py: the background loop *)

Section BackgroundLoop.
Context {D : Type}.
Implicit Types (g : Game.t D) (w : World D).

Lemma background_turns_running (task : Task D) delay turns w :
  fst (background_turns task delay turns w) <> Return Finished.
Proof.
  revert w. induction turns as [|turns IH]; intros w; simpl.
  - discriminate.
  - unfold bind at 1. destruct (task w) as [[[]|e] w1]; [|discriminate].
    unfold bind, asyncio_sleep, ret. apply IH.
Qed.

(** X20.  Without a background hook the background loop returns at once
    and touches nothing.  With one it never returns: a turn in which the
    hook returns is followed by the next turn on the world the hook left,
    and the loop ends only when the hook raises, with that exception. *)
Theorem background_loop_turns g :
  (Game.tasks g background = None ->
   forall turns w, background_loop g turns w = (Return Finished, w))
  /\ forall task,
       Game.tasks g background = Some task ->
       (forall turns w, fst (background_loop g turns w) <> Return Finished)
       /\ (forall turns w w1,
             task w = (Return tt, w1) ->
             background_loop g (S turns) w = background_loop g turns w1)
       /\ (forall turns w e w1,
             task w = (Raise e, w1) ->
             background_loop g (S turns) w = (Raise e, w1)).
Proof.
  unfold background_loop. split.
  - intros ->. reflexivity.
  - intros task ->. repeat split.
    + intros turns w. apply background_turns_running.
    + intros turns w w1 H. simpl. unfold bind at 1. now rewrite H.
    + intros turns w e w1 H. simpl. unfold bind at 1. now rewrite H.
Qed.
End BackgroundLoop.

(** X21.  In the example game, [turns] turns of the background loop add
    [turns] to the timer and change nothing else: not the counter, not the
    number of actions, not the output. *)
Theorem example_background_counts_turns (turns : nat)
    (w : World Example.ExampleGame) :
  background_loop Example.game turns w
  = (Return Running,
     {| data := {| Example.timer := Example.timer (data w) + Z.of_nat turns;
                   Example.n_actions := Example.n_actions (data w);
                   Example.counter := Example.counter (data w) |};
        stdout := stdout w |}).
Proof.
  change (background_loop Example.game turns w)
    with (background_turns Example.background_task 1%Q turns w).
  revert w. induction turns as [|turns IH]; intros [[t n c] out].
  - simpl. unfold ret. now rewrite Z.add_0_r.
  - change (background_turns Example.background_task 1%Q (S turns)
              {| data := {| Example.timer := t; Example.n_actions := n;
                            Example.counter := c |}; stdout := out |})
      with (background_turns Example.background_task 1%Q turns
              {| data := {| Example.timer := t + 1; Example.n_actions := n;
                            Example.counter := c |}; stdout := out |}).
    rewrite IH, Nat2Z.inj_succ.
    cbn [data stdout Example.timer Example.n_actions Example.counter].
    do 3 f_equal. lia.
Qed.

(** ** A line that the pattern of its command does not match *)

(** X22.  In a game the setup can reach, when the first word of the line
    names a command made from a pattern and the rest of the line (the empty
    string when there is none) is not matched in full by the pattern, the
    turn prints "Command does not match pattern: " followed by the
    pattern, the data object stays as it was, and neither hook runs. *)
Theorem unmatched_line_prints_pattern {re : RegexLibrary}
    {core : PydanticCore} {D} cfg (g : Game.t D) line uinput0 rest command
    (p : RegexCommandParser.t) (w : World D) :
  reachable cfg g ->
  split_maxsplit1 line = uinput0 :: rest ->
  dict.lookup uinput0 (Game.commands g) = Some command ->
  Command.parser command = RegexCommandParser.as_parser p ->
  fullmatch (RegexCommandParser.cpattern p) (hd "" rest) = None ->
  Game.user_loop_body g line w
  = (Return tt,
     {| data := data w;
        stdout := (stdout w
                   ++ [("Command does not match pattern: "
                        ++ RegexCommandParser.pattern p)%string])%list |}).
Proof.
  intros Hr Hsplit Hc Hp Hm.
  rewrite (user_loop_body_command _ Hr Hsplit Hc).
  unfold Command.parse. rewrite Hp. simpl.
  unfold RegexCommandParser.parse. now rewrite Hm.
Qed.

Lemma unmatched_line_prints_pattern_witness :
  Game.user_loop_body Example.game "add 5 " Example.new_world
  = (Return tt,
     {| data := Example.new_data;
        stdout := ["Command does not match pattern: (?P<value>[\d-]+)"] |}).
Proof.
  refine (@unmatched_line_prints_pattern mini_regex decimal_core _
            default_GameConfig Example.game "add 5 " "add" ["5 "]
            Example.AddCommand Example.add_parser Example.new_world
            example_game_reachable _ _ _ _);
    reflexivity.
Defined.

(** [view counter] prints the counter, after the before-command hook
    counted the command. *)
Example run_view :
  Game.user_loop
    Example.game ["add 12"; "view counter"; "view n_actions"; "view score"]
    Example.new_world
  = (Raise EOFError,
     {| data := {| Example.timer := 0; Example.n_actions := 3;
                   Example.counter := 12 |};
        stdout := ["12"; "3";
                   "Command does not match pattern: (?P<value>counter|timer|n_actions)"] |}).
Proof. reflexivity. Qed.
